(* ===== verification/_CoqProject ===== *)
-Q . S2P
Prelude.v
Params.v
ExportSize.v
TapTimer.v
Shader.v
Media.v
Session.v
SessionInv.v
SessionWf.v
Gestures.v
ExportOrch.v
ExportFlow.v
Scenarios.v
SessionFun.v
Liveness.v
