(* ===== verification/Prelude.v ===== *)
(** * Pixelquilt: a verification development of [src/src/main.js]

    The program.  [src/src/main.js] is the whole application logic of
    pixelquilt: one [main] closure that owns a handful of mutable
    variables ([currentFacingMode], [videoInput], [imageInput],
    [nStrips], [nShuffles], [lastTapTime], [play]) and registers DOM
    listeners that mutate them (keyboard, shutter button, swipe and
    touch-end gestures, file drop).  Two ShaderPad renderers (an npm
    dependency) are driven from these handlers: [displayShader], which runs
    a self-rescheduling render loop on screen, and [exportShader], which
    renders one high-resolution frame on an off-screen canvas and saves it.
    Camera access ([getUserMedia]), image decoding, the 8 ms export timer
    and the save are asynchronous: each [await] or callback is a point
    where other handlers can run.  [src/vite.config.js] is build
    configuration only.

    Files, in dependency order, and what they model:

    - [Prelude] (this file): the notation scope [pq_scope] ([x ∈ᶻ [lo, hi]]),
      the JavaScript number helpers the source relies on ([js_sign] for
      [Math.sign] of a rational swipe delta, [js_round_div] for
      [Math.round] of a quotient, [clamp]), the tactics [zcase] (case split
      on integer comparisons) and [dlia] ([lia] with division), the hint
      database [pq], list lemmas for removing a resolved task from the
      pending list, [count_of] (the number of pending tasks of one kind),
      and the trace runner [run_trace] with its invariance
      lemma.
    - [Params] (Module [Params]): [nStrips] and [nShuffles] (lines 5-8,
      40-41, 151-188).  [nShuffles] moves by 1 (arrow keys) and by 1/8
      (horizontal swipes), so it is kept exactly as the integer
      [nShuffles8 = 8 * nShuffles].  Every update is an instance of the
      class [BoundedUpdate], the interface the session invariant uses.
    - [ExportSize] (Module [ExportSize]): the export size of
      [exportHighRes] (lines 95-117) and the integer conversion of the
      canvas size (lines 116-117).
    - [TapTimer] (Module [TapTimer]): the double-tap detector (lines 180,
      191-198), an abstract specification over the gesture history, and
      the refinement theorem between them.
    - [Shader] (Module [Shader]): the state of one ShaderPad instance as the
      program observes it (playing, per-frame callback, the two uniforms,
      the texture), modelled from the spec's list of the library boundary.
    - [Media] (Module [Media]): facing modes, video and image elements,
      [getWebcamStream] (lines 11-31) and [stopWebcamStream] (130-134); the
      camera hardware is the set of stream ids whose tracks run.
    - [Session] (Module [Session]): the record [Session] (closure variables,
      both shaders, the export canvas, live tracks, attached video elements,
      the [flipped] class, pending continuations, saved files, the console
      and uncaught-error log); one function per listener ([on_keydown],
      [on_shutter_click], [on_swipe], [on_touchend], [on_drop], [on_frame])
      and per synchronous part of an async function ([exportHighRes],
      [switchCamera]); one function per continuation
      ([switchCamera_resume], [image_onload], [export_timeout],
      [export_saved]); [step] applies an [Event], where [EvResolve i r]
      resolves the [i]-th pending task with the environment's outcome [r],
      in any order; [reachable] is the set of states reachable from
      [main_start].
    - [SessionInv] (Module [SessionInv]): invariants of every reachable
      state, by induction on [reachable]: parameter bounds (through the
      refinement theorem [step_params] onto [Params.apply_input]), display
      uniforms equal to the parameters, the display loop playing whenever
      the export canvas is detached, an attached canvas belonging to an
      export in progress, and, for serial camera use ([serial_reachable]),
      the only live track being that of [videoInput].
    - [SessionWf] (Module [SessionWf]): the well-formedness invariant
      [ids_ok]: every stream, element and image identifier the state holds
      (live tracks, attached elements, the inputs, both shaders' textures)
      is below the allocation counter [nextId], so each object a
      continuation creates is fresh.
    - [Gestures] (Module [Gestures]): the composition of [TapTimer] with
      the session: on [lastTapTime] each swipe or touch-end event is one
      [TapTimer.gesture_step], and over any sequence of such events the
      camera requests the session queues are the [true] decisions of the
      detector (none in image mode).
    - [ExportOrch] (Module [ExportOrch]): the spec's export orchestrator as
      an abstract machine ([orch_step] on phase Idle, Preparing or
      Rendering, display loop running, canvas attached), the abstraction
      [orch_of] of a session, and the refinement theorem: on the runs that
      start no export and decode no image while an export runs
      ([orch_reachable]), each session step is an abstract step or a
      stutter, and it follows that the display loop stays paused while an
      export runs.
    - [ExportFlow] (Module [ExportFlow]): one export request followed
      through its three steps, on the success path and when [save] rejects,
      and the round trip: a completed export gives back the state it
      started from, display shader included, except for the file saved and
      the export canvas and shader; and the lazy synchronisation of the
      export shader: only an export request changes it.
    - [Scenarios] (Module [Scenarios]): concrete interleavings evaluated by
      the kernel, showing what the code does when asynchronous operations
      overlap (two exports, a triple tap, an image during a camera switch or
      during an export, a camera switch's new element, start-up without a
      camera).
    - [SessionFun] (Module [SessionFun]): handler behaviour branch by
      branch (the outcomes
      of a camera switch, an image replacing the camera).
    - [Liveness] (Module [Liveness]): with no further input the event loop
      drains ([drain], with fuel; fuel equal to the weight of the pending
      list, 2 per export timer and 1 per other task, is enough because
      every resolution lowers the weight), and from every reachable state
      without a failed save the display loop comes back with the export
      canvas detached.

    Kinds of theorems: a well-formedness invariant (allocated
    identifiers), range invariants (bounds of the two parameters, of the
    export size), a round trip (an export restores the session), functional behaviour of each
    handler on each branch including its error branches, an equivalence
    (the export size for integer [nShuffles] equals the spec's integer
    formula), four refinements (the double-tap detector against its
    history specification, session steps against the [Params] component
    and against the [TapTimer] component, session steps against the spec's
    export orchestrator),
    reachability invariants, termination of the event loop and a
    liveness property, and safety scenarios.

    Bounds and fuel: every handler is non-recursive and [run_trace]
    recurses on its event list; only [Liveness.drain] takes fuel, and
    [Liveness.drain_empties] shows the weight of the pending list is
    enough.  Integers are
    [Z]: the source's values are JavaScript doubles holding small integers
    or multiples of 1/8, which [Z] represents exactly; swipe deltas are
    rationals [Q].  [2^(nShuffles+1)] with a fractional exponent is
    irrational; [ExportSize] represents [x * 2^(nShuffles+1)] by its exact
    eighth power, so the model uses real-number semantics; the rounding of
    those values by floating-point arithmetic is not modelled.  Times are
    [Date.now()] milliseconds as [Z].

    Not modelled: the GLSL fragment shader (not in [src/]) and GPU
    rendering; [handleTouch] (imported from [./handleTouch], not in
    [src/]), whose outputs are the inputs of the swipe event, assumed to run
    its callback before the [touchend] listener of line 192 sees the end of
    the same gesture (it is registered first); the DOM beyond the attached
    video elements, the export canvas and the [flipped] class (the
    [ready] class of line 45 and the [DOMContentLoaded] hook of line 208
    only start the program); [dragover] only prevents the default action;
    [vite.config.js] (base path, plugins and dev server, no run-time
    behaviour).  ShaderPad's rendering, pixel readback and encoding belong
    to the library: the model keeps only the state of an instance that
    [main.js] sets and reads, which is why the Render Session Adapter is
    only partly modelled.  Every statement of [main.js] that changes
    program state is modelled. *)

From stdpp Require Export base decidable list strings.
From Stdlib Require Export ZArith QArith Lia.

Declare Scope pq_scope.
Delimit Scope pq_scope with pq.
Open Scope Z_scope.

(** ** JavaScript numbers used by the source *)

(** [Math.max(lo, Math.min(hi, x))], as lines 182 and 185 write it. *)
Definition clamp (lo hi x : Z) : Z := Z.max lo (Z.min hi x).

#[warnings="-postfix-notation-not-level-1"]
Notation "x ∈ᶻ [ lo , hi ]" := (lo <= x <= hi)%Z
  (at level 70, lo at level 200, hi at level 200) : pq_scope.
Open Scope pq_scope.

(** Strict comparison of rationals as a boolean ([a < b] in JavaScript). *)
Definition Qltb (a b : Q) : bool := negb (Qle_bool b a).

(** [Math.sign] of a finite number: 1, -1 or 0. *)
Definition js_sign (d : Q) : Z :=
  if Qltb 0 d then 1 else if Qltb d 0 then -1 else 0.

(** [Math.round(p / q)] for [q > 0]: [floor(p/q + 1/2)]. *)
Definition js_round_div (p q : Z) : Z := (2 * p + q) / (2 * q).

(** ** Tactics *)

(** Case split on every boolean comparison of integers in the goal. *)
Ltac zcase :=
  repeat match goal with
  | |- context [Z.ltb ?a ?b] => destruct (Z.ltb_spec a b)
  | |- context [Z.leb ?a ?b] => destruct (Z.leb_spec a b)
  | |- context [Z.eqb ?a ?b] => destruct (Z.eqb_spec a b)
  end.

(** [lia] after turning [Z.div] and [Z.modulo] into their defining
    equations. *)
Ltac dlia := Z.to_euclidean_division_equations; lia.

Create HintDb pq discriminated.

(** ** Generic lemmas *)

Lemma Qltb_spec (a b : Q) : Qltb a b = true <-> (a < b)%Q.
Proof.
  unfold Qltb. rewrite negb_true_iff.
  split; intros H.
  - apply Qnot_le_lt. intros Hle. apply Qle_bool_iff in Hle. congruence.
  - destruct (Qle_bool b a) eqn:E; [|reflexivity].
    apply Qle_bool_iff in E. exfalso. apply (Qlt_not_le a b); assumption.
Qed.

Lemma js_sign_range (d : Q) : js_sign d ∈ᶻ [-1, 1].
Proof. unfold js_sign. destruct (Qltb 0 d), (Qltb d 0); lia. Qed.

Lemma js_sign_pos (d : Q) : (0 < d)%Q -> js_sign d = 1.
Proof. intros H. unfold js_sign. apply Qltb_spec in H. now rewrite H. Qed.

Lemma js_sign_neg (d : Q) : (d < 0)%Q -> js_sign d = -1.
Proof.
  intros H. unfold js_sign.
  destruct (Qltb 0 d) eqn:E.
  - apply Qltb_spec in E. exfalso. apply (Qlt_irrefl 0). now apply Qlt_trans with d.
  - apply Qltb_spec in H. now rewrite H.
Qed.

Lemma clamp_range lo hi x : lo <= hi -> clamp lo hi x ∈ᶻ [lo, hi].
Proof. unfold clamp. lia. Qed.

#[export] Hint Resolve clamp_range js_sign_range : pq.

(** [Math.round(p / q)] is the integer nearest to [p / q]: it is at most
    half a unit away. *)
Lemma js_round_div_spec p q :
  0 < q -> 2 * q * js_round_div p q <= 2 * p + q < 2 * q * js_round_div p q + 2 * q.
Proof.
  intros Hq. unfold js_round_div.
  pose proof (Z.mul_div_le (2 * p + q) (2 * q)).
  pose proof (Z.mod_pos_bound (2 * p + q) (2 * q)).
  pose proof (Z.div_mod (2 * p + q) (2 * q)).
  lia.
Qed.

(** ** Removing one element of a list (a resolved task) *)

Lemma Exists_delete_other {A} (P : A -> Prop) (l : list A) i x :
  l !! i = Some x -> ~ P x -> Exists P l -> Exists P (delete i l).
Proof.
  intros Hi Hx HE. rewrite (delete_Permutation l i x Hi) in HE.
  inversion HE; subst; [contradiction|done].
Qed.

Lemma filter_length_delete {A} (P : A -> Prop) `{!forall x, Decision (P x)}
    (l : list A) i x :
  l !! i = Some x ->
  (length (filter P l) = length (filter P [x]) + length (filter P (delete i l)))%nat.
Proof.
  intros Hi. pose proof (delete_Permutation l i x Hi) as Hp.
  apply (filter_Permutation P), Permutation_length in Hp. rewrite Hp.
  rewrite !filter_cons, filter_nil. case_decide; done.
Qed.

(** The number of elements of a list that satisfy [f] (pending tasks of
    one kind). *)
Definition count_of {A} (f : A -> bool) (l : list A) : nat :=
  length (filter (fun x => f x = true) l).
Arguments count_of : simpl never.

Lemma count_of_app {A} (f : A -> bool) (l : list A) x :
  count_of f (l ++ [x]) = (count_of f l + if f x then 1 else 0)%nat.
Proof.
  unfold count_of. rewrite filter_app, length_app, filter_cons, filter_nil.
  destruct (f x); case_decide; simpl; try congruence; lia.
Qed.

Lemma count_of_cons {A} (f : A -> bool) x (l : list A) :
  count_of f (x :: l) = ((if f x then 1 else 0) + count_of f l)%nat.
Proof. unfold count_of. rewrite filter_cons. destruct (f x); case_decide; simpl; congruence. Qed.

Lemma count_of_delete {A} (f : A -> bool) (l : list A) i x :
  l !! i = Some x -> count_of f l = ((if f x then 1 else 0) + count_of f (delete i l))%nat.
Proof.
  intros Hi. unfold count_of. rewrite (filter_length_delete _ l i x Hi).
  rewrite filter_cons, filter_nil.
  destruct (f x); case_decide; simpl; try congruence; lia.
Qed.

Lemma not_elem_of_app_l {A} (x : A) (l l' : list A) : x ∉ l ++ l' -> x ∉ l.
Proof. intros H Hin. apply H, elem_of_app. by left. Qed.

Lemma elem_of_app_last {A} (x : A) (l : list A) : x ∈ l ++ [x].
Proof. apply elem_of_app. right. by apply list_elem_of_singleton. Qed.

(** ** Traces of a step function *)

Section Traces.
Context {S E : Type} (step : S -> E -> option S).

(** Feed a list of events to a partial step function; [None] when one
    event is not enabled. *)
Fixpoint run_trace (s : S) (es : list E) : option S :=
  match es with
  | [] => Some s
  | e :: es' => match step s e with
                | Some s' => run_trace s' es'
                | None => None
                end
  end.

Lemma run_trace_app s es1 es2 :
  run_trace s (es1 ++ es2) =
  match run_trace s es1 with Some s' => run_trace s' es2 | None => None end.
Proof.
  revert s. induction es1 as [|e es1 IH]; intros s; simpl; [done|].
  destruct (step s e); [apply IH | done].
Qed.

Context (P : S -> Prop).
Hypothesis step_preserves : forall s e s', P s -> step s e = Some s' -> P s'.

Lemma run_trace_preserves s es s' : P s -> run_trace s es = Some s' -> P s'.
Proof.
  revert s. induction es as [|e es IH]; intros s HP Hrun; simpl in Hrun.
  - congruence.
  - destruct (step s e) as [s1|] eqn:Hs; [|done].
    eapply IH; [eapply step_preserves|]; eauto.
Qed.
End Traces.
