(* ===== verification/Params.v ===== *)
(** * Params: the two tunable parameters of [src/src/main.js]

    [nStrips] (lines 40, 151-160, 185) and [nShuffles] (lines 41, 161-168,
    182) with the bounds of lines 5-8.  [nShuffles] changes by 1 on the
    arrow keys and by [Math.sign(diff) / 8] on a horizontal swipe, so its
    values are multiples of 1/8; the model keeps [nShuffles8 = 8 * nShuffles]
    as an exact integer.  Each update is an instance of [BoundedUpdate], the
    interface through which [SessionInv] proves the bound invariant. *)

From S2P Require Import Prelude.

Module Params.

(** ** Constants and initial values (lines 5-8, 40-41) *)

Definition MIN_N_STRIPS : Z := 1.
Definition MAX_N_STRIPS : Z := 1920.
Definition MIN_N_SHUFFLES : Z := 1.
Definition MAX_N_SHUFFLES : Z := 32.

(** [nShuffles] is stored in eighths. *)
Definition MIN_N_SHUFFLES8 : Z := 8 * MIN_N_SHUFFLES.
Definition MAX_N_SHUFFLES8 : Z := 8 * MAX_N_SHUFFLES.

Definition init_nStrips : Z := 32.
Definition init_nShuffles8 : Z := 8 * MIN_N_SHUFFLES.

(** ** Updates *)

(** [ArrowUp]: [nStrips = Math.min(MAX_N_STRIPS, nStrips + 1)] (line 154). *)
Definition arrowUp_nStrips (nStrips : Z) : Z := Z.min MAX_N_STRIPS (nStrips + 1).

(** [ArrowDown]: [nStrips = Math.max(MIN_N_STRIPS, nStrips - 1)] (line 158). *)
Definition arrowDown_nStrips (nStrips : Z) : Z := Z.max MIN_N_STRIPS (nStrips - 1).

(** [ArrowRight]: [nShuffles = Math.min(MAX_N_SHUFFLES, nShuffles + 1)]
    (line 162), in eighths. *)
Definition arrowRight_nShuffles8 (n8 : Z) : Z := Z.min MAX_N_SHUFFLES8 (n8 + 8).

(** [ArrowLeft]: [nShuffles = Math.max(MIN_N_SHUFFLES, nShuffles - 1)]
    (line 166), in eighths. *)
Definition arrowLeft_nShuffles8 (n8 : Z) : Z := Z.max MIN_N_SHUFFLES8 (n8 - 8).

(** Horizontal swipe: [nShuffles = Math.max(MIN_N_SHUFFLES,
    Math.min(MAX_N_SHUFFLES, nShuffles + Math.sign(diff) / 8))] (line 182),
    in eighths. *)
Definition swipeX_nShuffles8 (diff : Q) (n8 : Z) : Z :=
  clamp MIN_N_SHUFFLES8 MAX_N_SHUFFLES8 (n8 + js_sign diff).

(** Vertical swipe: [nStrips = Math.max(MIN_N_STRIPS,
    Math.min(MAX_N_STRIPS, nStrips - Math.sign(diff)))] (line 185). *)
Definition swipeY_nStrips (diff : Q) (nStrips : Z) : Z :=
  clamp MIN_N_STRIPS MAX_N_STRIPS (nStrips - js_sign diff).

(** ** The parameter part of the input handlers *)

(** The inputs that change a parameter: the four arrow keys of the
    [keydown] listener and the two axes of the [handleTouch] callback. *)
Inductive ParamInput :=
| PArrowUp | PArrowDown | PArrowRight | PArrowLeft
| PSwipeX (diff : Q) | PSwipeY (diff : Q).

Record Params := mkParams { p_nStrips : Z; p_nShuffles8 : Z }.

Definition init_params : Params := mkParams init_nStrips init_nShuffles8.

(** The effect of one input on the two variables (lines 151-168, 181-187). *)
Definition apply_input (p : Params) (i : ParamInput) : Params :=
  match i with
  | PArrowUp => mkParams (arrowUp_nStrips (p_nStrips p)) (p_nShuffles8 p)
  | PArrowDown => mkParams (arrowDown_nStrips (p_nStrips p)) (p_nShuffles8 p)
  | PArrowRight => mkParams (p_nStrips p) (arrowRight_nShuffles8 (p_nShuffles8 p))
  | PArrowLeft => mkParams (p_nStrips p) (arrowLeft_nShuffles8 (p_nShuffles8 p))
  | PSwipeX d => mkParams (p_nStrips p) (swipeX_nShuffles8 d (p_nShuffles8 p))
  | PSwipeY d => mkParams (swipeY_nStrips d (p_nStrips p)) (p_nShuffles8 p)
  end.

Definition apply_inputs (p : Params) (ins : list ParamInput) : Params :=
  fold_left apply_input ins p.

(** The bound invariant of the spec (section 3, ParameterState). *)
Definition params_ok (p : Params) : Prop :=
  p_nStrips p ∈ᶻ [MIN_N_STRIPS, MAX_N_STRIPS] /\
  p_nShuffles8 p ∈ᶻ [MIN_N_SHUFFLES8, MAX_N_SHUFFLES8].

#[export] Instance params_ok_dec p : Decision (params_ok p).
Proof. unfold params_ok. apply _. Defined.

(** ** The interface: an update that keeps a value within bounds *)

Class BoundedUpdate (lo hi : Z) (f : Z -> Z) : Prop :=
  bounded_update : forall x, x ∈ᶻ [lo, hi] -> f x ∈ᶻ [lo, hi].

Section Instances.
#[local] Ltac solve_bounded :=
  intros x Hx; unfold MIN_N_STRIPS, MAX_N_STRIPS, MIN_N_SHUFFLES8,
    MAX_N_SHUFFLES8, MIN_N_SHUFFLES, MAX_N_SHUFFLES in *; lia.

#[export] Instance arrowUp_bounded :
  BoundedUpdate MIN_N_STRIPS MAX_N_STRIPS arrowUp_nStrips.
Proof. unfold arrowUp_nStrips. solve_bounded. Qed.

#[export] Instance arrowDown_bounded :
  BoundedUpdate MIN_N_STRIPS MAX_N_STRIPS arrowDown_nStrips.
Proof. unfold arrowDown_nStrips. solve_bounded. Qed.

#[export] Instance arrowRight_bounded :
  BoundedUpdate MIN_N_SHUFFLES8 MAX_N_SHUFFLES8 arrowRight_nShuffles8.
Proof. unfold arrowRight_nShuffles8. solve_bounded. Qed.

#[export] Instance arrowLeft_bounded :
  BoundedUpdate MIN_N_SHUFFLES8 MAX_N_SHUFFLES8 arrowLeft_nShuffles8.
Proof. unfold arrowLeft_nShuffles8. solve_bounded. Qed.

#[export] Instance swipeX_bounded d :
  BoundedUpdate MIN_N_SHUFFLES8 MAX_N_SHUFFLES8 (swipeX_nShuffles8 d).
Proof. unfold swipeX_nShuffles8, clamp. solve_bounded. Qed.

#[export] Instance swipeY_bounded d :
  BoundedUpdate MIN_N_STRIPS MAX_N_STRIPS (swipeY_nStrips d).
Proof. unfold swipeY_nStrips, clamp. solve_bounded. Qed.
End Instances.

#[export] Hint Resolve bounded_update : pq.

(** ** Theorems *)

Lemma apply_input_ok p i : params_ok p -> params_ok (apply_input p i).
Proof.
  intros [Hs Hn]. destruct i; split; simpl; try apply bounded_update; assumption.
Qed.

Lemma init_params_ok : params_ok init_params.
Proof. vm_compute. intuition congruence. Qed.

(** C35 (bounds): from the initial values of lines 40-41, every sequence
    of arrow keys and swipes leaves [nStrips] in [1, 1920] and
    [nShuffles] in [1, 32]. *)
Theorem params_bounded_any_sequence (ins : list ParamInput) :
  params_ok (apply_inputs init_params ins).
Proof.
  unfold apply_inputs. generalize init_params init_params_ok.
  induction ins as [|i ins IH]; intros p Hp; simpl; [done|].
  apply IH, apply_input_ok, Hp.
Qed.

(** The increments saturate: pressing [ArrowUp] [k] times from a value
    below the maximum adds [k] up to the maximum (line 154). *)
Lemma arrowUp_iter (k : nat) (n : Z) :
  n <= MAX_N_STRIPS ->
  Nat.iter k arrowUp_nStrips n = Z.min MAX_N_STRIPS (n + Z.of_nat k).
Proof.
  intros Hn. induction k as [|k IH]; simpl; [lia|].
  rewrite IH. unfold arrowUp_nStrips. lia.
Qed.

Lemma arrowDown_iter (k : nat) (n : Z) :
  MIN_N_STRIPS <= n ->
  Nat.iter k arrowDown_nStrips n = Z.max MIN_N_STRIPS (n - Z.of_nat k).
Proof.
  intros Hn. induction k as [|k IH]; simpl; [lia|].
  rewrite IH. unfold arrowDown_nStrips. lia.
Qed.

Lemma apply_inputs_repeat_up (k : nat) (p : Params) :
  apply_inputs p (repeat PArrowUp k) =
  mkParams (Nat.iter k arrowUp_nStrips (p_nStrips p)) (p_nShuffles8 p).
Proof.
  revert p. induction k as [|k IH]; intros p; [by destruct p|].
  unfold apply_inputs in *. cbn [repeat fold_left]. rewrite IH. cbn.
  f_equal. apply Nat.iter_swap.
Qed.

Lemma apply_inputs_repeat_down (k : nat) (p : Params) :
  apply_inputs p (repeat PArrowDown k) =
  mkParams (Nat.iter k arrowDown_nStrips (p_nStrips p)) (p_nShuffles8 p).
Proof.
  revert p. induction k as [|k IH]; intros p; [by destruct p|].
  unfold apply_inputs in *. cbn [repeat fold_left]. rewrite IH. cbn.
  f_equal. apply Nat.iter_swap.
Qed.

(** C36 (functional): every strip count of the range can be set from the
    initial value with the arrow keys alone, without touching [nShuffles]. *)
Theorem nStrips_every_value_reachable (target : Z) :
  target ∈ᶻ [MIN_N_STRIPS, MAX_N_STRIPS] ->
  exists ins, apply_inputs init_params ins = mkParams target init_nShuffles8.
Proof.
  intros Ht. destruct (Z.le_gt_cases init_nStrips target).
  - exists (repeat PArrowUp (Z.to_nat (target - init_nStrips))).
    rewrite apply_inputs_repeat_up, arrowUp_iter; simpl.
    + f_equal. unfold init_nStrips in *. lia.
    + unfold init_nStrips, MAX_N_STRIPS. lia.
  - exists (repeat PArrowDown (Z.to_nat (init_nStrips - target))).
    rewrite apply_inputs_repeat_down, arrowDown_iter; simpl.
    + f_equal. unfold init_nStrips, MIN_N_STRIPS in *. lia.
    + unfold init_nStrips, MIN_N_STRIPS. lia.
Qed.

(** ** Integrality of [nShuffles] *)

(** The uniform [u_nShuffles] is declared with type ['int'] (line 88):
    the value is an integer exactly when [nShuffles8] is a multiple of 8. *)
Definition nShuffles_is_integer (n8 : Z) : bool := n8 mod 8 =? 0.

(** C38 (functional): one horizontal swipe to the right from an integer
    [nShuffles] below the maximum makes it non-integral, [n + 1/8]: the
    value pushed to the ['int'] uniform of line 88 is then fractional. *)
Theorem swipeX_makes_nShuffles_fractional (p : Params) (diff : Q) :
  params_ok p -> nShuffles_is_integer (p_nShuffles8 p) = true ->
  p_nShuffles8 p < MAX_N_SHUFFLES8 -> (0 < diff)%Q ->
  p_nShuffles8 (apply_input p (PSwipeX diff)) = p_nShuffles8 p + 1 /\
  nShuffles_is_integer (p_nShuffles8 (apply_input p (PSwipeX diff))) = false.
Proof.
  intros [_ Hr] Hi Hlt Hd. simpl. unfold swipeX_nShuffles8, clamp.
  rewrite js_sign_pos by done.
  rewrite Z.min_r, Z.max_r by lia. split; [done|].
  unfold nShuffles_is_integer in *. apply Z.eqb_eq in Hi. apply Z.eqb_neq.
  dlia.
Qed.

Lemma nStrips_every_value_reachable_witness :
  exists ins, apply_inputs init_params ins = mkParams 100 init_nShuffles8.
Proof. apply nStrips_every_value_reachable. unfold MIN_N_STRIPS, MAX_N_STRIPS. lia. Defined.

Lemma swipeX_makes_nShuffles_fractional_witness :
  p_nShuffles8 (apply_input init_params (PSwipeX 20)) = init_nShuffles8 + 1 /\
  nShuffles_is_integer (p_nShuffles8 (apply_input init_params (PSwipeX 20))) = false.
Proof.
  apply swipeX_makes_nShuffles_fractional.
  - exact init_params_ok.
  - reflexivity.
  - vm_compute. reflexivity.
  - reflexivity.
Defined.

End Params.
