(* ===== verification/ExportSize.v ===== *)
(** * ExportSize: the resolution of a high-resolution export

    Lines 95-117 of [src/src/main.js] ([exportHighRes]): the native size of
    the current input is multiplied by [scaleFactor = 2^(nShuffles + 1)];
    when either side exceeds [MAX_EXPORT_DIMENSION] (line 9) the larger side
    is set to 4096 and the other to [Math.round] of the proportional value;
    the two numbers are then assigned to [exportCanvas.width] and
    [exportCanvas.height] (lines 116-117), which truncate to an integer.

    [nShuffles] is a multiple of 1/8 (see [Params]), so [scaleFactor] is in
    general irrational.  The model keeps the computation exact: a product
    [x * scaleFactor] with [x >= 0] is represented by its eighth power
    [x^8 * 2^(n8 + 8)] (where [n8 = 8 * nShuffles]), comparisons with 4096
    become comparisons of eighth powers, and the truncation of the canvas is
    the integer eighth root [root8]. *)

From S2P Require Import Prelude Params.

Module ExportSize.

Definition MAX_EXPORT_DIMENSION : Z := 4096.

(** [(x * Math.pow(2, nShuffles + 1))^8] with [nShuffles = n8 / 8]. *)
Definition scaled_pow8 (x n8 : Z) : Z := x ^ 8 * 2 ^ (n8 + 8).

(** [x * scaleFactor > MAX_EXPORT_DIMENSION] (line 106) for [x >= 0]. *)
Definition exceeds_max (x n8 : Z) : bool :=
  MAX_EXPORT_DIMENSION ^ 8 <? scaled_pow8 x n8.

(** The integer part of the eighth root: three integer square roots. *)
Definition root8 (y : Z) : Z := Z.sqrt (Z.sqrt (Z.sqrt y)).

(** [exportCanvas.width = x * scaleFactor] when no clamping happened: the
    canvas keeps the integer part of the (positive) number. *)
Definition canvas_scaled (x n8 : Z) : Z := root8 (scaled_pow8 x n8).

(** Lines 95-117: the canvas size for native size [w x h] and
    [nShuffles = n8 / 8].  In the clamped branch the scale factor cancels:
    [aspectRatio = (w * s) / (h * s) = w / h]. *)
Definition exportDims (w h n8 : Z) : Z * Z :=
  if exceeds_max w n8 || exceeds_max h n8 then
    if h <? w
    then (MAX_EXPORT_DIMENSION, js_round_div (MAX_EXPORT_DIMENSION * h) w)
    else (js_round_div (MAX_EXPORT_DIMENSION * w) h, MAX_EXPORT_DIMENSION)
  else (canvas_scaled w n8, canvas_scaled h n8).

(** The spec's formula for an integer [nShuffles = n]: multiply by
    [2^(n+1)], and clamp with the same rule. *)
Definition exportDims_int (w h n : Z) : Z * Z :=
  let W := w * 2 ^ (n + 1) in
  let H := h * 2 ^ (n + 1) in
  if (MAX_EXPORT_DIMENSION <? W) || (MAX_EXPORT_DIMENSION <? H) then
    if H <? W
    then (MAX_EXPORT_DIMENSION, js_round_div (MAX_EXPORT_DIMENSION * h) w)
    else (js_round_div (MAX_EXPORT_DIMENSION * w) h, MAX_EXPORT_DIMENSION)
  else (W, H).

(** ** Lemmas on eighth powers and roots *)

Lemma pow8_sq (x : Z) : x ^ 8 = ((x * x) * (x * x)) * ((x * x) * (x * x)).
Proof. ring. Qed.

Lemma sq_le_mono (x y : Z) : 0 <= x <= y -> x * x <= y * y.
Proof. nia. Qed.

Lemma pow8_lt_iff (x y : Z) : 0 <= x -> 0 <= y -> x ^ 8 < y ^ 8 <-> x < y.
Proof.
  intros Hx Hy. split; intros H.
  - destruct (Z.lt_ge_cases x y) as [|Hge]; [done|].
    pose proof (Z.pow_le_mono_l y x 8 (conj Hy Hge)). lia.
  - apply Z.pow_lt_mono_l; lia.
Qed.

Lemma root8_pow8 (a : Z) : 0 <= a -> root8 (a ^ 8) = a.
Proof.
  intros Ha. unfold root8. rewrite pow8_sq.
  rewrite Z.sqrt_square by nia. rewrite Z.sqrt_square by nia.
  apply Z.sqrt_square. done.
Qed.

(** [root8 y] is the integer part of the eighth root of [y]. *)
Lemma root8_spec (y : Z) :
  0 <= y -> root8 y ^ 8 <= y < (root8 y + 1) ^ 8.
Proof.
  intros Hy. unfold root8.
  pose proof (Z.sqrt_spec y Hy) as [Ha1 Ha2].
  set (a := Z.sqrt y) in *. pose proof (Z.sqrt_nonneg y) as Ha.
  pose proof (Z.sqrt_spec a Ha) as [Hb1 Hb2].
  set (b := Z.sqrt a) in *. pose proof (Z.sqrt_nonneg a) as Hb.
  pose proof (Z.sqrt_spec b Hb) as [Hc1 Hc2].
  set (c := Z.sqrt b) in *. pose proof (Z.sqrt_nonneg b) as Hc.
  rewrite !pow8_sq. unfold Z.succ in *. split.
  - assert (c * c * (c * c) <= b * b) by (apply sq_le_mono; nia). nia.
  - assert (a + 1 <= (b + 1) * (b + 1)) by lia.
    assert (b + 1 <= (c + 1) * (c + 1)) by lia.
    assert ((b + 1) * (b + 1) <= (c + 1) * (c + 1) * ((c + 1) * (c + 1)))
      by (apply sq_le_mono; lia).
    assert ((a + 1) * (a + 1) <=
            (c + 1) * (c + 1) * ((c + 1) * (c + 1)) *
            ((c + 1) * (c + 1) * ((c + 1) * (c + 1)))) by (apply sq_le_mono; lia).
    lia.
Qed.

Lemma scaled_pow8_nonneg x n8 : 0 <= n8 + 8 -> 0 <= scaled_pow8 x n8.
Proof.
  intros Hn. unfold scaled_pow8. rewrite pow8_sq.
  pose proof (Z.pow_nonneg 2 (n8 + 8) ltac:(lia)).
  assert (0 <= x * x) by nia. nia.
Qed.

(** For an integer [nShuffles = n], the eighth-power encoding is the
    eighth power of the plain product [x * 2^(n+1)]. *)
Lemma scaled_pow8_int (x n : Z) :
  0 <= n + 1 -> scaled_pow8 x (8 * n) = (x * 2 ^ (n + 1)) ^ 8.
Proof.
  intros Hn. unfold scaled_pow8. rewrite Z.pow_mul_l. f_equal.
  rewrite <- Z.pow_mul_r by lia. f_equal. lia.
Qed.

Lemma root8_le (y m : Z) : 0 <= y -> 0 <= m -> y <= m ^ 8 -> root8 y <= m.
Proof.
  intros Hy Hm Hle. pose proof (root8_spec y Hy) as [H1 _].
  destruct (Z.le_gt_cases (root8 y) m) as [|Hgt]; [done|].
  assert (m ^ 8 < root8 y ^ 8) by (apply pow8_lt_iff; lia). lia.
Qed.

Lemma root8_nonneg (y : Z) : 0 <= root8 y.
Proof. apply Z.sqrt_nonneg. Qed.

Lemma canvas_scaled_range (x n8 : Z) :
  0 <= n8 + 8 -> exceeds_max x n8 = false ->
  canvas_scaled x n8 ∈ᶻ [0, MAX_EXPORT_DIMENSION].
Proof.
  intros Hn Hx. unfold exceeds_max, canvas_scaled in *. apply Z.ltb_ge in Hx.
  split; [apply root8_nonneg|].
  apply root8_le; [apply scaled_pow8_nonneg| |]; unfold MAX_EXPORT_DIMENSION in *; lia.
Qed.

(** The proportional side: [Math.round(M * p / q)] with [p <= q] stays
    within [0, M]. *)
Lemma round_ratio_range (M p q : Z) :
  0 <= M -> 0 <= p <= q -> 0 < q -> js_round_div (M * p) q ∈ᶻ [0, M].
Proof.
  intros HM Hp Hq. pose proof (js_round_div_spec (M * p) q Hq). nia.
Qed.

Lemma exceeds_max_pos (x n8 : Z) : 0 <= x -> exceeds_max x n8 = true -> 0 < x.
Proof.
  intros Hx He. unfold exceeds_max, scaled_pow8 in He. apply Z.ltb_lt in He.
  destruct (Z.eq_dec x 0) as [->|]; [done|lia].
Qed.

(** Case analysis on the branches of [exportDims], with the positivity
    facts each clamped branch needs. *)
Ltac export_cases w h n8 :=
  unfold exportDims;
  destruct (exceeds_max w n8) eqn:?Hw, (exceeds_max h n8) eqn:?Hh; simpl;
  repeat match goal with
  | H : exceeds_max ?x _ = true |- _ =>
      let Hp := fresh "Hpos" in
      assert (Hp : 0 < x) by (eapply exceeds_max_pos; eauto); clear H
  end;
  zcase; cbn [fst snd].

(** C4 (bounds): for a non-negative native size, both sides of the export
    canvas are between 0 and [MAX_EXPORT_DIMENSION] = 4096, whatever
    [nShuffles]. *)
Theorem exportDims_bounded (w h n8 : Z) :
  0 <= w -> 0 <= h -> 0 <= n8 + 8 ->
  fst (exportDims w h n8) ∈ᶻ [0, MAX_EXPORT_DIMENSION] /\
  snd (exportDims w h n8) ∈ᶻ [0, MAX_EXPORT_DIMENSION].
Proof.
  intros Hw0 Hh0 Hn. export_cases w h n8; split;
    try (apply round_ratio_range || apply canvas_scaled_range);
    unfold MAX_EXPORT_DIMENSION in *; try done; lia.
Qed.

(** C5 (functional): when the scaled size exceeds 4096 on either side,
    the larger native side becomes exactly 4096 (the width on a tie goes
    to the height, line 108's strict comparison). *)
Theorem exportDims_clamped_side (w h n8 : Z) :
  0 <= w -> 0 <= h ->
  exceeds_max w n8 || exceeds_max h n8 = true ->
  (h < w -> fst (exportDims w h n8) = MAX_EXPORT_DIMENSION) /\
  (w <= h -> snd (exportDims w h n8) = MAX_EXPORT_DIMENSION) /\
  Z.max (fst (exportDims w h n8)) (snd (exportDims w h n8)) = MAX_EXPORT_DIMENSION.
Proof.
  intros Hw0 Hh0 Hc. export_cases w h n8; try discriminate;
    repeat split; try lia;
    match goal with
    | |- Z.max _ _ = _ => apply Z.max_l + apply Z.max_r
    end;
    match goal with
    | |- context [js_round_div (?M * ?p) ?q] =>
        pose proof (round_ratio_range M p q ltac:(unfold MAX_EXPORT_DIMENSION; lia)
                      ltac:(lia) ltac:(lia)); lia
    end.
Qed.

(** C6 (bounds): in the clamped branch the aspect ratio is kept up to the
    rounding of [Math.round]: [W / H] differs from [w / h] by at most half
    a pixel on the proportional side, i.e.
    [|2 (W h - H w)| <= max w h]. *)
Theorem exportDims_aspect (w h n8 : Z) :
  0 <= w -> 0 <= h ->
  exceeds_max w n8 || exceeds_max h n8 = true ->
  Z.abs (2 * (fst (exportDims w h n8) * h - snd (exportDims w h n8) * w))
    <= Z.max w h.
Proof.
  intros Hw0 Hh0 Hc. export_cases w h n8; try discriminate;
    match goal with
    | |- context [js_round_div ?p ?q] => pose proof (js_round_div_spec p q ltac:(lia))
    end; lia.
Qed.

Lemma exceeds_max_int (x n : Z) :
  0 <= x -> 0 <= n + 1 ->
  exceeds_max x (8 * n) = (MAX_EXPORT_DIMENSION <? x * 2 ^ (n + 1)).
Proof.
  intros Hx Hn. unfold exceeds_max. rewrite scaled_pow8_int by done.
  pose proof (Z.pow_nonneg 2 (n + 1) ltac:(lia)).
  apply eq_true_iff_eq. rewrite !Z.ltb_lt.
  apply pow8_lt_iff; unfold MAX_EXPORT_DIMENSION; nia.
Qed.

Lemma canvas_scaled_int (x n : Z) :
  0 <= x -> 0 <= n + 1 -> canvas_scaled x (8 * n) = x * 2 ^ (n + 1).
Proof.
  intros Hx Hn. unfold canvas_scaled. rewrite scaled_pow8_int by done.
  apply root8_pow8. pose proof (Z.pow_nonneg 2 (n + 1) ltac:(lia)). nia.
Qed.

(** C7 (equivalence): for an integer [nShuffles = n] the code's result is
    the spec's integer formula: multiply by [2^(n+1)], and clamp the
    larger side to 4096 when a side exceeds it. *)
Theorem exportDims_integer_nShuffles (w h n : Z) :
  0 <= w -> 0 <= h -> 0 <= n + 1 ->
  exportDims w h (8 * n) = exportDims_int w h n.
Proof.
  intros Hw Hh Hn. unfold exportDims, exportDims_int.
  rewrite !exceeds_max_int, !canvas_scaled_int by done.
  pose proof (Z.pow_pos_nonneg 2 (n + 1) ltac:(lia) Hn).
  assert (Hlt : (h * 2 ^ (n + 1) <? w * 2 ^ (n + 1)) = (h <? w)).
  { apply eq_true_iff_eq. rewrite !Z.ltb_lt. split; nia. }
  rewrite Hlt. reflexivity.
Qed.

(** ** The spec's examples, and a fractional [nShuffles] *)


(** The spec's second example: 100x100 with [nShuffles = 1] gives 400x400
    (no clamping). *)
Example exportDims_100x100_depth1 : exportDims 100 100 (8 * 1) = (400, 400).
Proof. vm_compute. reflexivity. Qed.


(** ** Witnesses *)

Lemma exportDims_bounded_witness :
  fst (exportDims 1920 1080 24) ∈ᶻ [0, MAX_EXPORT_DIMENSION] /\
  snd (exportDims 1920 1080 24) ∈ᶻ [0, MAX_EXPORT_DIMENSION].
Proof. apply exportDims_bounded; lia. Defined.

Lemma exportDims_clamped_side_witness :
  (1080 < 1920 -> fst (exportDims 1920 1080 24) = MAX_EXPORT_DIMENSION) /\
  (1920 <= 1080 -> snd (exportDims 1920 1080 24) = MAX_EXPORT_DIMENSION) /\
  Z.max (fst (exportDims 1920 1080 24)) (snd (exportDims 1920 1080 24))
    = MAX_EXPORT_DIMENSION.
Proof. apply exportDims_clamped_side; [lia | lia | vm_compute; reflexivity]. Defined.

Lemma exportDims_aspect_witness :
  Z.abs (2 * (fst (exportDims 1000 333 24) * 333 - snd (exportDims 1000 333 24) * 1000))
    <= Z.max 1000 333.
Proof. apply exportDims_aspect; [lia | lia | vm_compute; reflexivity]. Defined.

Lemma exportDims_integer_nShuffles_witness :
  exportDims 640 480 (8 * 2) = exportDims_int 640 480 2.
Proof. apply exportDims_integer_nShuffles; lia. Defined.

End ExportSize.
