(* ===== verification/TapTimer.v ===== *)
(** * TapTimer: the double-tap detector of [src/src/main.js]

    Lines 180 and 191-198: a [touchend] listener compares [Date.now()] with
    the time of the previous [touchend] ([lastTapTime], initially 0) and
    calls [switchCamera] when they are less than 300 ms apart; the
    [handleTouch] callback resets [lastTapTime] to 0 when its [diff] is
    greater than 16.  [handleTouch] (not in [src/]) registers its listeners
    before line 192 does, so the callback of a swipe runs before the
    [touchend] listener sees the end of that same swipe: a swipe is the
    gesture [GSwipe diff] followed by [GTouchEnd t].

    The module gives the implementation (one integer of state), an abstract
    specification over the history of gestures (the most recent touch end
    not followed by a reset), and the refinement theorem between them. *)

From S2P Require Import Prelude.

Module TapTimer.

Definition DOUBLE_TAP_MS : Z := 300.
Definition SWIPE_RESET_DIFF : Q := 16.
Definition init_lastTapTime : Z := 0.

(** Line 180: [if (diff > 16) lastTapTime = 0;]. *)
Definition swipe_reset (diff : Q) (lastTapTime : Z) : Z :=
  if Qltb SWIPE_RESET_DIFF diff then 0 else lastTapTime.

(** Lines 193-197: whether [switchCamera] is called, and the new
    [lastTapTime]. *)
Definition touchend (currentTime lastTapTime : Z) : bool * Z :=
  (currentTime - lastTapTime <? DOUBLE_TAP_MS, currentTime).

Inductive Gesture :=
| GSwipe (diff : Q)      (** the [handleTouch] callback *)
| GTouchEnd (now : Z).   (** the [touchend] listener, at [Date.now()] *)

(** One gesture: the new [lastTapTime] and whether [switchCamera] runs. *)
Definition gesture_step (lastTapTime : Z) (g : Gesture) : Z * bool :=
  match g with
  | GSwipe d => (swipe_reset d lastTapTime, false)
  | GTouchEnd now => let (sw, t) := touchend now lastTapTime in (t, sw)
  end.

(** Whether [switchCamera] is called, gesture by gesture. *)
Fixpoint decisions (lastTapTime : Z) (gs : list Gesture) : list bool :=
  match gs with
  | [] => []
  | g :: gs' =>
      let (t', sw) := gesture_step lastTapTime g in sw :: decisions t' gs'
  end.

(** [lastTapTime] after a sequence of gestures. *)
Definition last_after (lastTapTime : Z) (gs : list Gesture) : Z :=
  fold_left (fun l g => fst (gesture_step l g)) gs lastTapTime.

(** ** Abstract specification *)

(** A gesture between the two taps of a double tap: a swipe that does not
    reset the timer. *)
Definition quiet (g : Gesture) : Prop :=
  match g with GSwipe d => Qltb SWIPE_RESET_DIFF d = false | GTouchEnd _ => False end.

(** The time the detector compares against, from the history (most recent
    gesture first): the last touch end, unless a swipe with [diff > 16]
    came after it; 0 when there is none. *)
Fixpoint last_tap_spec (hist : list Gesture) : Z :=
  match hist with
  | [] => init_lastTapTime
  | GTouchEnd t :: _ => t
  | GSwipe d :: hist' => if Qltb SWIPE_RESET_DIFF d then 0 else last_tap_spec hist'
  end.

(** Touch times are [Date.now()] values: milliseconds since 1970, far above
    300. *)
Definition time_ok (g : Gesture) : Prop :=
  match g with GTouchEnd t => DOUBLE_TAP_MS <= t | GSwipe _ => True end.

(** ** Refinement *)

Lemma gesture_step_abs hist g :
  fst (gesture_step (last_tap_spec hist) g) = last_tap_spec (g :: hist).
Proof. destruct g; reflexivity. Qed.

Lemma last_after_abs hist gs :
  last_after (last_tap_spec hist) gs = last_tap_spec (rev gs ++ hist).
Proof.
  unfold last_after. revert hist. induction gs as [|g gs IH]; intros hist; [done|].
  simpl. rewrite gesture_step_abs, IH, <- app_assoc. reflexivity.
Qed.

Lemma decisions_at l pre g post :
  decisions l (pre ++ g :: post) !! length pre = Some (snd (gesture_step (last_after l pre) g)).
Proof.
  unfold last_after. revert l. induction pre as [|g' pre IH]; intros l;
    cbn [app length decisions fold_left].
  - destruct (gesture_step l g); reflexivity.
  - destruct (gesture_step l g') as [l' sw] eqn:E. cbn [lookup list_lookup].
    rewrite IH. reflexivity.
Qed.

Lemma last_tap_spec_quiet q t rest :
  Forall quiet q -> last_tap_spec (q ++ GTouchEnd t :: rest) = t.
Proof.
  induction 1 as [|g q Hg _ IH]; [done|].
  destruct g as [d|]; simpl in *; [rewrite Hg; exact IH | done].
Qed.

Lemma last_tap_spec_cases hist :
  last_tap_spec hist = 0 \/
  exists q rest, hist = q ++ GTouchEnd (last_tap_spec hist) :: rest /\ Forall quiet q.
Proof.
  induction hist as [|g hist IH]; [by left|].
  destruct g as [d|t]; simpl.
  - destruct (Qltb SWIPE_RESET_DIFF d) eqn:E; [by left|].
    destruct IH as [->|(q & rest & Hh & Hq)]; [by left|right].
    exists (GSwipe d :: q), rest. rewrite Hh at 1. split; [done|].
    constructor; [exact E|exact Hq].
  - right. exists [], hist. split; [done|constructor].
Qed.

(** C8 (refinement): the [touchend] listener calls [switchCamera] on a touch
    end at time [now] exactly when an earlier touch end at [t] with
    [now - t < 300] is separated from it only by swipes with [diff <= 16]. *)
Theorem double_tap_iff (pre post : list Gesture) (now : Z) :
  Forall time_ok pre -> DOUBLE_TAP_MS <= now ->
  decisions init_lastTapTime (pre ++ GTouchEnd now :: post) !! length pre = Some true <->
  exists pre0 t mid, pre = pre0 ++ GTouchEnd t :: mid /\ Forall quiet mid /\
                     now - t < DOUBLE_TAP_MS.
Proof.
  intros Hok Hnow. rewrite decisions_at.
  change init_lastTapTime with (last_tap_spec []).
  rewrite last_after_abs, app_nil_r. simpl.
  split.
  - intros [= Hlt%Z.ltb_lt].
    destruct (last_tap_spec_cases (rev pre)) as [He|(q & rest & Hh & Hq)].
    { rewrite He in Hlt. unfold DOUBLE_TAP_MS in *. lia. }
    set (t := last_tap_spec (rev pre)) in *. clearbody t.
    exists (rev rest), t, (rev q).
    split; [|split; [by apply Forall_rev|done]].
    rewrite <- (rev_involutive pre), Hh, rev_app_distr. simpl.
    rewrite <- app_assoc. reflexivity.
  - intros (pre0 & t & mid & -> & Hmid & Hlt).
    rewrite rev_app_distr. simpl. rewrite <- app_assoc. simpl.
    rewrite last_tap_spec_quiet by (by apply Forall_rev).
    f_equal. by apply Z.ltb_lt.
Qed.

(** ** What the detector does with swipes *)

(** C26 (functional): a swipe up or to the left ([diff < -16], magnitude
    above 16) does not reset the timer: line 180 tests [diff > 16], not its
    magnitude.  A tap followed within 300 ms by such a swipe calls
    [switchCamera] when the swipe ends, while the same swipe in the other
    direction does not. *)
Theorem negative_swipe_keeps_timer (l t0 t1 : Z) (d : Q) :
  (d < -16)%Q -> DOUBLE_TAP_MS <= t1 -> t1 - t0 < DOUBLE_TAP_MS ->
  decisions l [GTouchEnd t0; GSwipe d; GTouchEnd t1] !! 2%nat = Some true /\
  decisions l [GTouchEnd t0; GSwipe (- d); GTouchEnd t1] !! 2%nat = Some false.
Proof.
  intros Hd Ht1 Hlt.
  assert (Hneg : Qltb SWIPE_RESET_DIFF d = false).
  { destruct (Qltb SWIPE_RESET_DIFF d) eqn:E; [|done].
    apply Qltb_spec in E. unfold SWIPE_RESET_DIFF in E.
    exfalso. apply (Qlt_irrefl d). apply Qlt_trans with (-16)%Q; [done|].
    apply Qlt_trans with 16%Q; [reflexivity|done]. }
  assert (Hpos : Qltb SWIPE_RESET_DIFF (- d) = true).
  { apply Qltb_spec. unfold SWIPE_RESET_DIFF.
    apply Qopp_lt_compat in Hd. exact Hd. }
  cbn. unfold swipe_reset. rewrite Hneg, Hpos. cbn.
  split; f_equal; [apply Z.ltb_lt | apply Z.ltb_ge]; lia.
Qed.

(** C27 (functional): the reset of line 180 runs before the swipe's own
    touch end is recorded (line 197), so a tap less than 300 ms after the
    end of any swipe calls [switchCamera], whatever the swipe. *)
Theorem tap_after_swipe_switches (l t1 t2 : Z) (d : Q) :
  t2 - t1 < DOUBLE_TAP_MS ->
  decisions l [GSwipe d; GTouchEnd t1; GTouchEnd t2] !! 2%nat = Some true.
Proof.
  intros Hlt. cbn. f_equal. apply Z.ltb_lt. done.
Qed.

(** C28 (functional): two taps exactly 300 ms apart are not a double tap
    (line 194 compares with [<]). *)
Theorem taps_300ms_apart_no_switch (l t : Z) :
  decisions l [GTouchEnd t; GTouchEnd (t + DOUBLE_TAP_MS)] = [t - l <? DOUBLE_TAP_MS; false].
Proof. cbn. f_equal. f_equal. apply Z.ltb_ge. lia. Qed.

Lemma negative_swipe_keeps_timer_witness :
  decisions 0 [GTouchEnd 1000; GSwipe (-40); GTouchEnd 1200] !! 2%nat = Some true /\
  decisions 0 [GTouchEnd 1000; GSwipe (- -40); GTouchEnd 1200] !! 2%nat = Some false.
Proof.
  apply negative_swipe_keeps_timer; [reflexivity | unfold DOUBLE_TAP_MS; lia | unfold DOUBLE_TAP_MS; lia].
Defined.

Lemma tap_after_swipe_switches_witness :
  decisions 0 [GSwipe 40; GTouchEnd 1000; GTouchEnd 1150] !! 2%nat = Some true.
Proof. apply tap_after_swipe_switches. unfold DOUBLE_TAP_MS. lia. Defined.

Lemma double_tap_iff_witness :
  decisions init_lastTapTime ([GTouchEnd 1000; GSwipe 3] ++ GTouchEnd 1250 :: []) !! 2%nat
    = Some true <->
  exists pre0 t mid, [GTouchEnd 1000; GSwipe 3] = pre0 ++ GTouchEnd t :: mid /\
    Forall quiet mid /\ 1250 - t < DOUBLE_TAP_MS.
Proof.
  apply (double_tap_iff [GTouchEnd 1000; GSwipe 3] [] 1250).
  - repeat constructor; cbn; unfold DOUBLE_TAP_MS; lia.
  - unfold DOUBLE_TAP_MS. lia.
Defined.

End TapTimer.
