(* ===== verification/Shader.v ===== *)
(** * Shader: the part of ShaderPad that [src/src/main.js] drives

    ShaderPad is an npm dependency, not code of this repository; this file
    models, from the spec's list of the library's boundary (section 6),
    the observable state of one renderer instance: whether its render loop
    is playing and with which per-frame callback, the values of the two
    uniforms ([u_nShuffles], [u_nStrips]) and the source bound to the
    texture [u_inputStream].  [main.js] creates two instances (lines 83-91)
    and calls [play], [pause], [updateUniforms], [updateTextures], [step]
    and [save] on them. *)

From S2P Require Import Prelude.

Module Shader.

(** A texture source: a camera [<video>] element or a decoded [Image],
    by identity (the same element may be bound to several uniforms). *)
Inductive TexSource :=
| TexVideo (video_id : nat)
| TexImage (image_id : nat).

#[export] Instance TexSource_eq_dec : EqDecision TexSource.
Proof. solve_decision. Defined.

(** The only per-frame callback the program passes to [play]: the one of
    lines 201-203, which rebinds [u_inputStream] to the current
    [videoInput]. *)
Inductive FrameCallback := SyncVideoTexture.

Record Shader := mkShader {
  sh_playing : bool;
  sh_onFrame : option FrameCallback;
  sh_nShuffles8 : Z;      (** uniform [u_nShuffles], times 8 *)
  sh_nStrips : Z;         (** uniform [u_nStrips] *)
  sh_texture : TexSource  (** texture [u_inputStream] *)
}.

(** [new ShaderPad(...)] followed by [initializeUniform] twice and
    [initializeTexture] (lines 83-91): not playing yet. *)
Definition initialize (n8 nStrips : Z) (tex : TexSource) : Shader :=
  mkShader false None n8 nStrips tex.

(** [play(cb)]: start (or restart) the loop with callback [cb]. *)
Definition play (cb : option FrameCallback) (sh : Shader) : Shader :=
  mkShader true cb (sh_nShuffles8 sh) (sh_nStrips sh) (sh_texture sh).

(** [pause()]: stop the loop; the uniforms and the texture are kept. *)
Definition pause (sh : Shader) : Shader :=
  mkShader false (sh_onFrame sh) (sh_nShuffles8 sh) (sh_nStrips sh) (sh_texture sh).

(** [updateUniforms({ u_nShuffles: v })]. *)
Definition set_u_nShuffles (n8 : Z) (sh : Shader) : Shader :=
  mkShader (sh_playing sh) (sh_onFrame sh) n8 (sh_nStrips sh) (sh_texture sh).

(** [updateUniforms({ u_nStrips: v })]. *)
Definition set_u_nStrips (n : Z) (sh : Shader) : Shader :=
  mkShader (sh_playing sh) (sh_onFrame sh) (sh_nShuffles8 sh) n (sh_texture sh).

(** [updateTextures({ u_inputStream: src })]. *)
Definition set_u_inputStream (tex : TexSource) (sh : Shader) : Shader :=
  mkShader (sh_playing sh) (sh_onFrame sh) (sh_nShuffles8 sh) (sh_nStrips sh) tex.

(** What [step(0)] draws on a canvas of the given size, and what [save]
    then writes to the file [pixelquilt]. *)
Record Snapshot := mkSnapshot {
  snap_width : Z;
  snap_height : Z;
  snap_nShuffles8 : Z;
  snap_nStrips : Z;
  snap_texture : TexSource
}.

Definition render (width height : Z) (sh : Shader) : Snapshot :=
  mkSnapshot width height (sh_nShuffles8 sh) (sh_nStrips sh) (sh_texture sh).

(** [play] with the callback the loop had, after [pause], restores the
    instance: pausing keeps the uniforms, the texture and the callback. *)
Lemma play_pause sh : sh_playing sh = true -> play (sh_onFrame sh) (pause sh) = sh.
Proof. destruct sh; cbn. by intros ->. Qed.

End Shader.
