(* ===== verification/Media.v ===== *)
(** * Media: camera streams and their hardware tracks

    [getWebcamStream] (lines 11-31) and [stopWebcamStream] (lines 130-134)
    of [src/src/main.js], with the camera facing mode of lines 35 and 140.
    The browser's camera hardware is the set [live] of stream identifiers
    whose track has not been stopped; a [<video>] element is identified by
    the stream it plays (every element the program keeps has its
    [srcObject] set, line 23).  [getUserMedia] is asynchronous: its outcome
    is an input of the model ([GumResult]). *)

From S2P Require Import Prelude.
From stdpp Require Import gmap.

Module Media.

(** ['user'] and ['environment'] (lines 35, 140). *)
Inductive FacingMode := User | Environment.

#[export] Instance FacingMode_eq_dec : EqDecision FacingMode.
Proof. solve_decision. Defined.

(** Line 140: [currentFacingMode === 'user' ? 'environment' : 'user']. *)
Definition toggleFacingMode (m : FacingMode) : FacingMode :=
  match m with User => Environment | Environment => User end.

(** A camera [<video>] element: its stream, [videoWidth], [videoHeight]. *)
Record Video := mkVideo { video_id : nat; videoWidth : Z; videoHeight : Z }.

(** A decoded dropped image: [naturalWidth], [naturalHeight]. *)
Record Image := mkImage { image_id : nat; naturalWidth : Z; naturalHeight : Z }.

(** How the browser answers [navigator.mediaDevices.getUserMedia] (line 22)
    once the metadata has loaded (line 24): a stream of the given size, or
    a rejection (permission denied, no matching device). *)
Inductive GumResult := GumGranted (w h : Z) | GumDenied.

(** Lines 22-30: on success a new element playing a new stream [fresh]
    whose track is now live; on failure the error is logged (line 26) and
    re-thrown, and nothing is acquired. *)
Definition getWebcamStream (fresh : nat) (r : GumResult) (live : gset nat)
  : option Video * gset nat :=
  match r with
  | GumGranted w h => (Some (mkVideo fresh w h), {[fresh]} ∪ live)
  | GumDenied => (None, live)
  end.

(** Lines 130-134: stop every track of the element's stream. *)
Definition stopWebcamStream (v : Video) (live : gset nat) : gset nat :=
  live ∖ {[video_id v]}.

Lemma stopWebcamStream_not_live v live : video_id v ∉ stopWebcamStream v live.
Proof. unfold stopWebcamStream. set_solver. Qed.

Lemma stopWebcamStream_idem v live :
  stopWebcamStream v (stopWebcamStream v live) = stopWebcamStream v live.
Proof. unfold stopWebcamStream. set_solver. Qed.

Lemma stopWebcamStream_subset v live : stopWebcamStream v live ⊆ live.
Proof. unfold stopWebcamStream. set_solver. Qed.

End Media.
