(* ===== verification/Session.v ===== *)
(** * Session: the [main] closure of [src/src/main.js] as a state machine

    The state of a running session is the record [Session]: the variables
    the closure declares ([currentFacingMode], [videoInput], [imageInput],
    [nStrips], [nShuffles], [lastTapTime], [play]), the two ShaderPad
    instances and the export canvas (lines 83-86), the part of the browser
    the program changes (live camera tracks, the [<video>] elements attached
    to [document.body], the [flipped] class), the continuations waiting in
    the JavaScript event loop ([pending]), the files saved and the console
    and uncaught-error log.

    Each listener is one function (its whole body, in the order of the
    code); each [await] or callback splits a handler into a synchronous
    part, which queues a [Task], and a continuation, which runs when the
    environment resolves that task.  [step] applies one [Event]: a user or
    browser event, one frame of the display loop, or the resolution of the
    [i]-th pending task with an outcome chosen by the environment.  The
    environment may resolve pending tasks in any order. *)

From S2P Require Import Prelude Params ExportSize TapTimer Shader Media.
From stdpp Require Import gmap.

Module Session.
Import Params ExportSize TapTimer Shader Media.

(** The two values of the variable [play]: the function of lines 200-204
    (play with the per-frame texture refresh) and the arrow function of
    line 71 (play without callback). *)
Inductive PlayFn := PlayWithSync | PlayPlain.

(** The off-screen canvas of line 84: its size and whether it is a child
    of [document.body]. *)
Record Canvas := mkCanvas { cv_width : Z; cv_height : Z; cv_attached : bool }.

(** A default canvas element is 300x150. *)
Definition init_canvas : Canvas := mkCanvas 300 150 false.

(** The continuations waiting in the event loop. *)
Inductive Task :=
| TSwitchCamera (newFacingMode : FacingMode)
    (** [switchCamera] awaiting [getWebcamStream] (line 142) *)
| TLoadImage
    (** [FileReader] and [Image] decoding of a dropped file (lines 65-77) *)
| TExportTimeout
    (** the [setTimeout] callback of [exportHighRes] (line 122) *)
| TExportSave (snap : Snapshot)
    (** [exportHighRes] awaiting [exportShader.save] (line 124) *).

(** What reaches the console or escapes as an uncaught error. *)
Inductive LogEntry :=
| LogWebcamError          (** [console.error] of line 26 *)
| LogSwitchCameraFailed   (** [console.error] of line 147 *)
| UncaughtSaveError       (** a rejected [save] (line 124) *)
| UncaughtNotFoundError.  (** [removeChild] of a detached canvas (line 125) *)

#[export] Instance LogEntry_eq_dec : EqDecision LogEntry.
Proof. solve_decision. Defined.

Record Session := mkSession {
  currentFacingMode : FacingMode;
  videoInput : Video;
  imageInput : option Image;
  nStrips : Z;
  nShuffles8 : Z;           (** [8 * nShuffles] *)
  lastTapTime : Z;
  play : PlayFn;
  displayShader : Shader;
  exportShader : Shader;
  exportCanvas : Canvas;
  live : gset nat;          (** camera streams whose tracks are running *)
  bodyVideos : gset nat;    (** [<video>] elements attached to the body *)
  flipped : bool;           (** class [flipped] of the body (line 145) *)
  nextId : nat;             (** identity of the next stream or image *)
  pending : list Task;
  saved : list Snapshot;    (** files written by [save('pixelquilt')] *)
  log : list LogEntry
}.

(** ** Field updates *)

Definition set_currentFacingMode (v : FacingMode) (s : Session) : Session :=
  mkSession v (videoInput s) (imageInput s) (nStrips s) (nShuffles8 s)
    (lastTapTime s) (play s) (displayShader s) (exportShader s)
    (exportCanvas s) (live s) (bodyVideos s) (flipped s) (nextId s)
    (pending s) (saved s) (log s).

Definition set_videoInput (v : Video) (s : Session) : Session :=
  mkSession (currentFacingMode s) v (imageInput s) (nStrips s) (nShuffles8 s)
    (lastTapTime s) (play s) (displayShader s) (exportShader s)
    (exportCanvas s) (live s) (bodyVideos s) (flipped s) (nextId s)
    (pending s) (saved s) (log s).

Definition set_imageInput (v : option Image) (s : Session) : Session :=
  mkSession (currentFacingMode s) (videoInput s) v (nStrips s) (nShuffles8 s)
    (lastTapTime s) (play s) (displayShader s) (exportShader s)
    (exportCanvas s) (live s) (bodyVideos s) (flipped s) (nextId s)
    (pending s) (saved s) (log s).

Definition set_nStrips (v : Z) (s : Session) : Session :=
  mkSession (currentFacingMode s) (videoInput s) (imageInput s) v
    (nShuffles8 s) (lastTapTime s) (play s) (displayShader s) (exportShader s)
    (exportCanvas s) (live s) (bodyVideos s) (flipped s) (nextId s)
    (pending s) (saved s) (log s).

Definition set_nShuffles8 (v : Z) (s : Session) : Session :=
  mkSession (currentFacingMode s) (videoInput s) (imageInput s) (nStrips s) v
    (lastTapTime s) (play s) (displayShader s) (exportShader s)
    (exportCanvas s) (live s) (bodyVideos s) (flipped s) (nextId s)
    (pending s) (saved s) (log s).

Definition set_lastTapTime (v : Z) (s : Session) : Session :=
  mkSession (currentFacingMode s) (videoInput s) (imageInput s) (nStrips s)
    (nShuffles8 s) v (play s) (displayShader s) (exportShader s)
    (exportCanvas s) (live s) (bodyVideos s) (flipped s) (nextId s)
    (pending s) (saved s) (log s).

Definition set_play (v : PlayFn) (s : Session) : Session :=
  mkSession (currentFacingMode s) (videoInput s) (imageInput s) (nStrips s)
    (nShuffles8 s) (lastTapTime s) v (displayShader s) (exportShader s)
    (exportCanvas s) (live s) (bodyVideos s) (flipped s) (nextId s)
    (pending s) (saved s) (log s).

Definition set_displayShader (v : Shader) (s : Session) : Session :=
  mkSession (currentFacingMode s) (videoInput s) (imageInput s) (nStrips s)
    (nShuffles8 s) (lastTapTime s) (play s) v (exportShader s)
    (exportCanvas s) (live s) (bodyVideos s) (flipped s) (nextId s)
    (pending s) (saved s) (log s).

Definition set_exportShader (v : Shader) (s : Session) : Session :=
  mkSession (currentFacingMode s) (videoInput s) (imageInput s) (nStrips s)
    (nShuffles8 s) (lastTapTime s) (play s) (displayShader s) v
    (exportCanvas s) (live s) (bodyVideos s) (flipped s) (nextId s)
    (pending s) (saved s) (log s).

Definition set_exportCanvas (v : Canvas) (s : Session) : Session :=
  mkSession (currentFacingMode s) (videoInput s) (imageInput s) (nStrips s)
    (nShuffles8 s) (lastTapTime s) (play s) (displayShader s) (exportShader s)
    v (live s) (bodyVideos s) (flipped s) (nextId s) (pending s) (saved s)
    (log s).

Definition set_live (v : gset nat) (s : Session) : Session :=
  mkSession (currentFacingMode s) (videoInput s) (imageInput s) (nStrips s)
    (nShuffles8 s) (lastTapTime s) (play s) (displayShader s) (exportShader s)
    (exportCanvas s) v (bodyVideos s) (flipped s) (nextId s) (pending s)
    (saved s) (log s).

Definition set_bodyVideos (v : gset nat) (s : Session) : Session :=
  mkSession (currentFacingMode s) (videoInput s) (imageInput s) (nStrips s)
    (nShuffles8 s) (lastTapTime s) (play s) (displayShader s) (exportShader s)
    (exportCanvas s) (live s) v (flipped s) (nextId s) (pending s) (saved s)
    (log s).

Definition set_flipped (v : bool) (s : Session) : Session :=
  mkSession (currentFacingMode s) (videoInput s) (imageInput s) (nStrips s)
    (nShuffles8 s) (lastTapTime s) (play s) (displayShader s) (exportShader s)
    (exportCanvas s) (live s) (bodyVideos s) v (nextId s) (pending s)
    (saved s) (log s).

Definition set_nextId (v : nat) (s : Session) : Session :=
  mkSession (currentFacingMode s) (videoInput s) (imageInput s) (nStrips s)
    (nShuffles8 s) (lastTapTime s) (play s) (displayShader s) (exportShader s)
    (exportCanvas s) (live s) (bodyVideos s) (flipped s) v (pending s)
    (saved s) (log s).

Definition set_pending (v : list Task) (s : Session) : Session :=
  mkSession (currentFacingMode s) (videoInput s) (imageInput s) (nStrips s)
    (nShuffles8 s) (lastTapTime s) (play s) (displayShader s) (exportShader s)
    (exportCanvas s) (live s) (bodyVideos s) (flipped s) (nextId s) v
    (saved s) (log s).

Definition set_saved (v : list Snapshot) (s : Session) : Session :=
  mkSession (currentFacingMode s) (videoInput s) (imageInput s) (nStrips s)
    (nShuffles8 s) (lastTapTime s) (play s) (displayShader s) (exportShader s)
    (exportCanvas s) (live s) (bodyVideos s) (flipped s) (nextId s)
    (pending s) v (log s).

Definition set_log (v : list LogEntry) (s : Session) : Session :=
  mkSession (currentFacingMode s) (videoInput s) (imageInput s) (nStrips s)
    (nShuffles8 s) (lastTapTime s) (play s) (displayShader s) (exportShader s)
    (exportCanvas s) (live s) (bodyVideos s) (flipped s) (nextId s)
    (pending s) (saved s) v.


Definition add_task (t : Task) (s : Session) : Session := set_pending (pending s ++ [t]) s.

Definition add_log (e : LogEntry) (s : Session) : Session := set_log (log s ++ [e]) s.

(** ** Start-up (lines 33-91 and 200-205) *)

(** [main] awaits [getWebcamStream('user')] before it registers anything:
    if the camera is refused the promise of [main] rejects (after the log
    of line 26) and no session exists.  Otherwise [started] is the state
    after line 205: the state variables of lines 35-41 and 191, both
    shaders initialised (lines 83-91), the video attached to the body
    (line 47) and the display loop playing (line 205). *)
Definition started (v : Video) (live0 : gset nat) : Session :=
  let tex := TexVideo (video_id v) in
  mkSession User v None init_nStrips init_nShuffles8 0 PlayWithSync
    (Shader.play (Some SyncVideoTexture) (initialize init_nShuffles8 init_nStrips tex))
    (initialize init_nShuffles8 init_nStrips tex)
    init_canvas live0 {[video_id v]} false 1 [] [] [].

Definition main_start (r : GumResult) : option Session :=
  match getWebcamStream 0 r ∅ with
  | (Some v, live0) => Some (started v live0)
  | (None, _) => None
  end.

(** ** Handlers *)

(** The callback each value of [play] passes to [displayShader.play]:
    the texture refresh of lines 201-203, or none (line 71). *)
Definition play_callback (p : PlayFn) : option FrameCallback :=
  match p with
  | PlayWithSync => Some SyncVideoTexture
  | PlayPlain => None
  end.

(** [play()]: whichever function the variable [play] holds. *)
Definition call_play (s : Session) : Session :=
  set_displayShader (Shader.play (play_callback (play s)) (displayShader s)) s.

(** [removeVideoInput] (lines 49-54). *)
Definition removeVideoInput (s : Session) : Session :=
  let s1 := set_live (stopWebcamStream (videoInput s) (live s)) s in
  set_bodyVideos (bodyVideos s1 ∖ {[video_id (videoInput s1)]}) s1.

(** The texture source [imageInput ?? videoInput] (line 120). *)
Definition current_source (s : Session) : TexSource :=
  match imageInput s with
  | Some img => TexImage (image_id img)
  | None => TexVideo (video_id (videoInput s))
  end.

(** The native size of the current input (lines 98-104). *)
Definition native_size (s : Session) : Z * Z :=
  match imageInput s with
  | Some img => (naturalWidth img, naturalHeight img)
  | None => (videoWidth (videoInput s), videoHeight (videoInput s))
  end.

(** [exportHighRes], synchronous part (lines 94-122). *)
Definition exportHighRes (s : Session) : Session :=
  let s1 := set_displayShader (pause (displayShader s)) s in
  let '(w, h) := native_size s1 in
  let '(W, H) := exportDims w h (nShuffles8 s1) in
  let s2 := set_exportCanvas (mkCanvas W H (cv_attached (exportCanvas s1))) s1 in
  let s3 := set_exportShader
              (set_u_nStrips (nStrips s2) (set_u_nShuffles (nShuffles8 s2) (exportShader s2))) s2 in
  let s4 := set_exportShader (set_u_inputStream (current_source s3) (exportShader s3)) s3 in
  let s5 := set_exportCanvas (mkCanvas (cv_width (exportCanvas s4))
                                       (cv_height (exportCanvas s4)) true) s4 in
  add_task TExportTimeout s5.

(** [switchCamera], synchronous part (lines 137-142). *)
Definition switchCamera (s : Session) : Session :=
  match imageInput s with
  | Some _ => s
  | None =>
      let s1 := set_live (stopWebcamStream (videoInput s) (live s)) s in
      add_task (TSwitchCamera (toggleFacingMode (currentFacingMode s1))) s1
  end.

(** Update [nStrips] and push it to the display shader. *)
Definition update_nStrips (n : Z) (s : Session) : Session :=
  let s1 := set_nStrips n s in
  set_displayShader (set_u_nStrips (nStrips s1) (displayShader s1)) s1.

Definition update_nShuffles8 (n8 : Z) (s : Session) : Session :=
  let s1 := set_nShuffles8 n8 s in
  set_displayShader (set_u_nShuffles (nShuffles8 s1) (displayShader s1)) s1.

(** The [keydown] listener (lines 151-173). *)
Definition on_keydown (key : string) (s : Session) : Session :=
  if String.eqb key "ArrowUp" then update_nStrips (arrowUp_nStrips (nStrips s)) s
  else if String.eqb key "ArrowDown" then update_nStrips (arrowDown_nStrips (nStrips s)) s
  else if String.eqb key "ArrowRight" then update_nShuffles8 (arrowRight_nShuffles8 (nShuffles8 s)) s
  else if String.eqb key "ArrowLeft" then update_nShuffles8 (arrowLeft_nShuffles8 (nShuffles8 s)) s
  else if String.eqb key "s" then exportHighRes s
  else s.

(** The shutter button (lines 175-177). *)
Definition on_shutter_click (s : Session) : Session := exportHighRes s.

(** The [handleTouch] callback (lines 179-188). *)
Definition on_swipe (direction : string) (diff : Q) (s : Session) : Session :=
  let s1 := set_lastTapTime (swipe_reset diff (lastTapTime s)) s in
  if String.eqb direction "x"
  then update_nShuffles8 (swipeX_nShuffles8 diff (nShuffles8 s1)) s1
  else update_nStrips (swipeY_nStrips diff (nStrips s1)) s1.

(** The [touchend] listener (lines 192-198). *)
Definition on_touchend (now : Z) (s : Session) : Session :=
  let '(sw, t) := touchend now (lastTapTime s) in
  let s1 := if sw then switchCamera s else s in
  set_lastTapTime t s1.

(** The [drop] listener (lines 56-62); a file is given by its MIME type. *)
Definition on_drop (types : list string) (s : Session) : Session :=
  match types with
  | ty :: _ => if String.prefix "image/" ty then add_task TLoadImage s else s
  | [] => s
  end.

(** One frame of the display loop: the callback passed to [play] runs
    (lines 201-203). *)
Definition on_frame (s : Session) : Session :=
  if sh_playing (displayShader s) then
    match sh_onFrame (displayShader s) with
    | Some SyncVideoTexture =>
        set_displayShader (set_u_inputStream (TexVideo (video_id (videoInput s)))
                             (displayShader s)) s
    | None => s
    end
  else s.


(** ** Continuations *)

(** How the environment resolves a pending task. *)
Inductive Resolution :=
| RGetUserMedia (r : GumResult)      (** the camera request of [switchCamera] *)
| RImageLoad (r : option (Z * Z))    (** decoded with this natural size, or never *)
| RTimeout                           (** the 8 ms timer fires *)
| RSave (ok : bool).                 (** [save] resolves ([true]) or rejects *)

(** The rest of [switchCamera] (lines 142-148). *)
Definition switchCamera_resume (nf : FacingMode) (r : GumResult) (s : Session) : Session :=
  match getWebcamStream (nextId s) r (live s) with
  | (Some v, live') =>
      let s1 := set_nextId (S (nextId s)) (set_live live' s) in
      let s2 := set_videoInput v s1 in
      let s3 := set_displayShader (set_u_inputStream (TexVideo (video_id (videoInput s2)))
                                     (displayShader s2)) s2 in
      let s4 := set_currentFacingMode nf s3 in
      set_flipped (bool_decide (nf = Environment)) s4
  | (None, _) => add_log LogSwitchCameraFailed (add_log LogWebcamError s)
  end.

(** [image.onload] (lines 68-74); an image that never decodes never
    calls it. *)
Definition image_onload (r : option (Z * Z)) (s : Session) : Session :=
  match r with
  | Some (w, h) =>
      let img := mkImage (nextId s) w h in
      let s1 := removeVideoInput (set_nextId (S (nextId s)) s) in
      let s2 := set_imageInput (Some img) s1 in
      let s3 := call_play (set_play PlayPlain s2) in
      set_displayShader (set_u_inputStream (TexImage (image_id img)) (displayShader s3)) s3
  | None => s
  end.

(** The timer callback of [exportHighRes] up to its [await] (lines
    123-124): render one frame and start saving it. *)
Definition export_timeout (s : Session) : Session :=
  let c := exportCanvas s in
  add_task (TExportSave (render (cv_width c) (cv_height c) (exportShader s))) s.

(** After [await exportShader.save('pixelquilt')] (lines 124-126). *)
Definition export_saved (snap : Snapshot) (ok : bool) (s : Session) : Session :=
  if ok then
    let s1 := set_saved (saved s ++ [snap]) s in
    if cv_attached (exportCanvas s1)
    then call_play (set_exportCanvas (mkCanvas (cv_width (exportCanvas s1))
                                               (cv_height (exportCanvas s1)) false) s1)
    else add_log UncaughtNotFoundError s1
  else add_log UncaughtSaveError s.

Definition resume (t : Task) (r : Resolution) (s : Session) : option Session :=
  match t, r with
  | TSwitchCamera nf, RGetUserMedia g => Some (switchCamera_resume nf g s)
  | TLoadImage, RImageLoad o => Some (image_onload o s)
  | TExportTimeout, RTimeout => Some (export_timeout s)
  | TExportSave snap, RSave ok => Some (export_saved snap ok s)
  | _, _ => None
  end.

(** ** Events and the step function *)

Inductive Event :=
| EvKeydown (key : string)
| EvShutterClick
| EvSwipe (direction : string) (diff : Q)
| EvTouchEnd (now : Z)
| EvDragOver
| EvDrop (types : list string)
| EvFrame
| EvResolve (i : nat) (r : Resolution).

Definition step (s : Session) (e : Event) : option Session :=
  match e with
  | EvKeydown k => Some (on_keydown k s)
  | EvShutterClick => Some (on_shutter_click s)
  | EvSwipe dir d => Some (on_swipe dir d s)
  | EvTouchEnd now => Some (on_touchend now s)
  | EvDragOver => Some s
  | EvDrop tys => Some (on_drop tys s)
  | EvFrame => Some (on_frame s)
  | EvResolve i r =>
      match pending s !! i with
      | Some t => resume t r (set_pending (delete i (pending s)) s)
      | None => None
      end
  end.

(** The states a session can be in. *)
Inductive reachable : Session -> Prop :=
| reachable_start w h s :
    main_start (GumGranted w h) = Some s -> reachable s
| reachable_step s e s' :
    reachable s -> step s e = Some s' -> reachable s'.

(** A concrete run from start-up. *)
Definition run (w h : Z) (es : list Event) : option Session :=
  match main_start (GumGranted w h) with
  | Some s => run_trace step s es
  | None => None
  end.

End Session.
