(* ===== verification/SessionInv.v ===== *)
(** * SessionInv: invariants of every reachable session state

    Proved by induction on [Session.reachable]: each invariant holds after
    start-up and every [Session.step] preserves it.  The parameter
    invariant goes through the refinement theorem [step_params], which says
    that on the two parameters a session step is exactly the abstract
    update [Params.apply_input] of the [Params] component (or no change),
    and then through the [BoundedUpdate] interface of [Params]. *)

From S2P Require Import Prelude Params ExportSize TapTimer Shader Media Session.
From stdpp Require Import gmap.

Module SessionInv.
Import Params Shader Media Session.

(** ** Case analysis on a step *)

(** Split a hypothesis [step s e = Some s'] into one goal per handler and
    per (task, resolution) pair, with [s'] replaced by the handler's
    result. *)
Ltac step_cases H :=
  match type of H with
  | step ?s ?e = Some ?s' =>
      destruct e as [k| |dir d|now| |tys| |i r]; cbn [step] in H;
      [ injection H as <- .. |
        destruct (pending s !! i) as [t|] eqn:?Hi; [|discriminate H];
        destruct t, r; cbn [resume] in H; try discriminate H;
        injection H as <- ]
  end.

(** The handlers' case splits on the guards of the code. *)
Ltac handler_cases :=
  repeat (cbn; repeat case_match; simplify_eq).

(** Discard the branches of a [switch] on [e.key] that contradict each
    other ([k = "s"] and [k = "ArrowUp"]). *)
Ltac key_cases :=
  repeat match goal with
  | H : String.eqb _ _ = true |- _ => apply String.eqb_eq in H; subst
  end; try discriminate.

(** ** Parameters: refinement of the [Params] component *)

Definition session_params (s : Session) : Params := mkParams (nStrips s) (nShuffles8 s).

(** The parameter input an event feeds to the [Params] component. *)
Definition param_input (e : Event) : option ParamInput :=
  match e with
  | EvKeydown k =>
      if String.eqb k "ArrowUp" then Some PArrowUp
      else if String.eqb k "ArrowDown" then Some PArrowDown
      else if String.eqb k "ArrowRight" then Some PArrowRight
      else if String.eqb k "ArrowLeft" then Some PArrowLeft
      else None
  | EvSwipe dir d => if String.eqb dir "x" then Some (PSwipeX d) else Some (PSwipeY d)
  | _ => None
  end.

Lemma exportHighRes_params s : session_params (exportHighRes s) = session_params s.
Proof. unfold exportHighRes. handler_cases; reflexivity. Qed.

Lemma switchCamera_params s : session_params (switchCamera s) = session_params s.
Proof. unfold switchCamera. handler_cases; reflexivity. Qed.

Lemma call_play_params s : session_params (call_play s) = session_params s.
Proof. unfold call_play. handler_cases; reflexivity. Qed.

(** C9 (refinement): on the two parameters, every session step is the
    abstract update [apply_input] of the [Params] component for the input
    the event carries (arrow keys, swipes), and the identity for every
    other event, continuation and frame. *)
Theorem step_params s e s' :
  step s e = Some s' ->
  session_params s' =
  match param_input e with
  | Some i => apply_input (session_params s) i
  | None => session_params s
  end.
Proof.
  intros H. step_cases H; cbn [param_input].
  - unfold on_keydown.
    repeat (case_match; [reflexivity|]).
    case_match; [apply exportHighRes_params|reflexivity].
  - apply exportHighRes_params.
  - unfold on_swipe. case_match; reflexivity.
  - unfold on_touchend. handler_cases; try reflexivity; apply switchCamera_params.
  - reflexivity.
  - unfold on_drop. handler_cases; reflexivity.
  - unfold on_frame. handler_cases; reflexivity.
  - unfold switchCamera_resume. handler_cases; reflexivity.
  - unfold image_onload. handler_cases; try reflexivity;
      rewrite call_play_params; reflexivity.
  - reflexivity.
  - unfold export_saved. handler_cases; try reflexivity;
      rewrite call_play_params; reflexivity.
Qed.

(** ** Invariants *)

Ltac start_case H := unfold main_start in H; cbn in H; injection H as <-.

Ltac unfold_handlers :=
  unfold on_keydown, on_shutter_click, on_swipe, on_touchend, on_drop, on_frame,
    switchCamera_resume, image_onload, export_timeout, export_saved,
    exportHighRes, switchCamera, call_play, removeVideoInput, update_nStrips,
    update_nShuffles8, add_task, add_log.

(** C1 (invariant): in every reachable state [nStrips] is in [1, 1920] and
    [nShuffles] in [1, 32]. *)
Theorem reachable_params_ok s : reachable s -> params_ok (session_params s).
Proof.
  induction 1 as [w h s Hs|s e s' _ IH Hstep].
  - start_case Hs. exact init_params_ok.
  - rewrite (step_params s e s' Hstep).
    destruct (param_input e); [apply apply_input_ok|]; exact IH.
Qed.

(** The display shader's uniforms hold the current parameters. *)
Definition display_synced (s : Session) : Prop :=
  sh_nStrips (displayShader s) = nStrips s /\
  sh_nShuffles8 (displayShader s) = nShuffles8 s.

Lemma step_display_synced s e s' :
  step s e = Some s' -> display_synced s -> display_synced s'.
Proof.
  intros H. unfold display_synced.
  step_cases H; unfold_handlers; handler_cases; tauto.
Qed.

(** C10 (invariant): every parameter change is pushed to the display
    shader at once (lines 155-186), and nothing else changes its uniforms:
    in every reachable state the uniforms of [displayShader] equal
    [nStrips] and [nShuffles]. *)
Theorem reachable_display_synced s : reachable s -> display_synced s.
Proof.
  induction 1 as [w h s Hs|s e s' _ IH Hstep].
  - start_case Hs. split; reflexivity.
  - eapply step_display_synced; eauto.
Qed.

(** The display loop runs whenever the export canvas is detached. *)
Definition detached_playing (s : Session) : Prop :=
  cv_attached (exportCanvas s) = false -> sh_playing (displayShader s) = true.

Lemma step_detached_playing s e s' :
  step s e = Some s' -> detached_playing s -> detached_playing s'.
Proof.
  intros H. unfold detached_playing.
  step_cases H; unfold_handlers; handler_cases; naive_solver.
Qed.

(** C11 (invariant): [exportHighRes] pauses the display loop and attaches
    the canvas in one synchronous block, and the only code that detaches
    the canvas calls [play()] right after: in every reachable state, if
    the export canvas is not in the document then the display loop is
    playing.  This holds whatever the outcome of the saves. *)
Theorem reachable_detached_playing s : reachable s -> detached_playing s.
Proof.
  induction 1 as [w h s Hs|s e s' _ IH Hstep].
  - start_case Hs. intros _. reflexivity.
  - eapply step_detached_playing; eauto.
Qed.

Definition is_export_task (t : Task) : Prop :=
  match t with TExportTimeout | TExportSave _ => True | _ => False end.

(** While no save has failed, an attached export canvas belongs to an
    export in progress. *)
Definition attached_has_export (s : Session) : Prop :=
  UncaughtSaveError ∉ log s -> cv_attached (exportCanvas s) = true ->
  Exists is_export_task (pending s).

Lemma step_attached_has_export s e s' :
  step s e = Some s' -> attached_has_export s -> attached_has_export s'.
Proof.
  intros H. unfold attached_has_export.
  step_cases H; unfold_handlers; handler_cases; intros IH Hn Ha.
  all: try (apply Exists_app; right; constructor; exact I).
  all: try (exfalso; apply Hn, elem_of_app_last).
  all: try congruence.
  all: try (apply Exists_app; left).
  all: try (eapply Exists_delete_other; [eassumption|simpl; tauto|]).
  all: apply IH; [first [assumption | eapply not_elem_of_app_l; eassumption | set_solver] | assumption].
Qed.

(** C12 (invariant): as long as no save has failed, the export canvas is in
    the document only while an export is in progress (its timer or its
    save is pending). *)
Theorem reachable_attached_has_export s : reachable s -> attached_has_export s.
Proof.
  induction 1 as [w h s Hs|s e s' _ IH Hstep].
  - start_case Hs. intros _ Ha. discriminate Ha.
  - eapply step_attached_has_export; eauto.
Qed.

(** C13 (safety): once every export request has completed and no save has
    failed, the display loop is running and the export canvas has left the
    document, whatever the order in which the timers and saves of
    overlapping exports were resolved. *)
Corollary reachable_exports_done s :
  reachable s -> UncaughtSaveError ∉ log s -> Forall (fun t => ~ is_export_task t) (pending s) ->
  cv_attached (exportCanvas s) = false /\ sh_playing (displayShader s) = true.
Proof.
  intros Hr Hn Hall.
  assert (Hd : cv_attached (exportCanvas s) = false).
  { destruct (cv_attached (exportCanvas s)) eqn:Ha; [|done].
    pose proof (reachable_attached_has_export s Hr Hn Ha) as HE.
    apply Exists_exists in HE as (t & Ht & Hex). rewrite Forall_forall in Hall.
    exfalso. by apply (Hall t). }
  split; [done|]. by apply (reachable_detached_playing s Hr).
Qed.

(** ** The per-frame callback *)

(** [play] is the plain function exactly when an image is the input, and
    the display shader's callback is the one of the current [play]. *)
Definition play_consistent (s : Session) : Prop :=
  play s = match imageInput s with Some _ => PlayPlain | None => PlayWithSync end /\
  sh_onFrame (displayShader s) = play_callback (play s).

Lemma step_play_consistent s e s' :
  step s e = Some s' -> play_consistent s -> play_consistent s'.
Proof.
  intros H. unfold play_consistent.
  step_cases H; unfold_handlers; handler_cases; cbn in *; simplify_eq; intuition congruence.
Qed.

Lemma reachable_play_consistent s : reachable s -> play_consistent s.
Proof.
  induction 1 as [w h s Hs|s e s' _ IH Hstep].
  - start_case Hs. split; reflexivity.
  - eapply step_play_consistent; eauto.
Qed.

(** ** Camera tracks under serial use *)

Definition is_switch_task (t : Task) : bool :=
  match t with TSwitchCamera _ => true | _ => false end.

(** The number of [switchCamera] calls waiting for their camera. *)
Definition n_switch (l : list Task) : nat := count_of is_switch_task l.

(** Reachable states when the user never starts a camera switch while
    another one is still waiting for its camera. *)
Inductive serial_reachable : Session -> Prop :=
| serial_start w h s :
    main_start (GumGranted w h) = Some s -> serial_reachable s
| serial_step s e s' :
    serial_reachable s -> step s e = Some s' -> (n_switch (pending s') <= 1)%nat ->
    serial_reachable s'.

Lemma serial_reachable_reachable s : serial_reachable s -> reachable s.
Proof. induction 1; [eapply reachable_start | eapply reachable_step]; eauto. Qed.




(** ** Witnesses *)

(** The session right after start-up with a 640x480 camera, and after
    one [ArrowUp] and one export request. *)
Definition st0 : Session := started (mkVideo 0 640 480) ({[0%nat]} ∪ ∅).
Definition st_key : Session := on_keydown "ArrowUp" st0.
Definition st_export : Session := on_keydown "s" st_key.


Lemma st_key_reachable : reachable st_key.
Proof.
  apply (reachable_step st0 (EvKeydown "ArrowUp")); [|reflexivity].
  apply (reachable_start 640 480). reflexivity.
Qed.

Lemma st_export_reachable : reachable st_export.
Proof. apply (reachable_step st_key (EvKeydown "s")); [exact st_key_reachable | reflexivity]. Qed.

Lemma reachable_params_ok_witness : params_ok (session_params st_key).
Proof. apply reachable_params_ok. exact st_key_reachable. Defined.

Lemma step_params_witness :
  session_params st_key =
  match param_input (EvKeydown "ArrowUp") with
  | Some i => apply_input (session_params st0) i
  | None => session_params st0
  end.
Proof. apply (step_params st0 (EvKeydown "ArrowUp") st_key). reflexivity. Defined.

Lemma reachable_display_synced_witness : display_synced st_export.
Proof. apply reachable_display_synced. exact st_export_reachable. Defined.

Lemma reachable_detached_playing_witness : detached_playing st_export.
Proof. apply reachable_detached_playing. exact st_export_reachable. Defined.

Lemma reachable_attached_has_export_witness : attached_has_export st_export.
Proof. apply reachable_attached_has_export. exact st_export_reachable. Defined.

Lemma reachable_exports_done_witness :
  cv_attached (exportCanvas st_key) = false /\ sh_playing (displayShader st_key) = true.
Proof.
  apply reachable_exports_done.
  - exact st_key_reachable.
  - vm_compute. intros H. inversion H.
  - vm_compute. constructor.
Defined.


End SessionInv.
