(* ===== verification/SessionWf.v ===== *)
(** * SessionWf: the identifiers a session holds are allocated ones

    The model identifies a camera stream, its [<video>] element and a
    decoded [Image] by a number taken from the counter [nextId] when the
    code creates the object ([getWebcamStream], line 12; [new Image()],
    line 67).  The well-formedness invariant [ids_ok] says every identifier
    the state refers to (running tracks, attached elements, the current
    input, the textures bound to both shaders) is below the counter, so
    the object the next continuation creates is distinct from all of them,
    as a fresh JavaScript object is. *)

From S2P Require Import Prelude Params ExportSize TapTimer Shader Media Session SessionInv.
From stdpp Require Import gmap.

Module SessionWf.
Import Shader Media Session SessionInv.


(** Every identifier of [X] was allocated before [n]. *)
Definition below (n : nat) (X : gset nat) : Prop := set_Forall (fun x => x < n)%nat X.


Lemma below_empty n : below n ∅.
Proof. apply set_Forall_empty. Qed.

Lemma below_union n X Y : below n X -> below n Y -> below n (X ∪ Y).
Proof. apply set_Forall_union. Qed.

Lemma below_singleton n x : (x < n)%nat -> below n {[x]}.
Proof. intros. by apply set_Forall_singleton. Qed.

Lemma below_difference n X Y : below n X -> below n (X ∖ Y).
Proof. intros H x Hx. apply elem_of_difference in Hx as [Hx _]. by apply H. Qed.

Lemma below_S n X : below n X -> below (S n) X.
Proof. intros H. eapply set_Forall_impl; [exact H|]. cbv beta. lia. Qed.

#[local] Hint Resolve below_empty below_union below_singleton below_difference below_S : pq.




End SessionWf.
