(* ===== verification/Gestures.v ===== *)
(** * Gestures: the session runs the [TapTimer] detector

    The swipe callback (lines 179-188) and the [touchend] listener (lines
    192-198) share the variable [lastTapTime] with the double-tap detector
    of [TapTimer].  This file composes the two components: on the timer,
    a swipe or touch-end event of the session is exactly one
    [TapTimer.gesture_step]; a touch end whose decision is [true] calls
    [switchCamera], which in camera mode queues one camera request for the
    other facing mode, and in image mode returns at once (line 137).  Over
    any sequence of such events the session's timer is [TapTimer.last_after]
    and its camera requests are the [true]s of [TapTimer.decisions], so the
    detector's refinement theorem [TapTimer.double_tap_iff] describes the
    camera switches of the session. *)

From S2P Require Import Prelude Params ExportSize TapTimer Shader Media Session SessionInv.
From stdpp Require Import gmap.

Module Gestures.
Import TapTimer Media Session SessionInv.

(** The gesture a session event feeds to the detector. *)
Definition gesture_of (e : Event) : option Gesture :=
  match e with
  | EvSwipe _ d => Some (GSwipe d)
  | EvTouchEnd now => Some (GTouchEnd now)
  | _ => None
  end.

(** The camera requests [switchCamera] queues when it is called [n]
    times in a row from [s]. *)
Definition switch_requests (s : Session) (n : nat) : list Task :=
  match imageInput s with
  | Some _ => []
  | None => replicate n (TSwitchCamera (toggleFacingMode (currentFacingMode s)))
  end.

Lemma switch_requests_add s n m :
  switch_requests s (n + m) = switch_requests s n ++ switch_requests s m.
Proof. unfold switch_requests. destruct (imageInput s); [done|]. apply replicate_add. Qed.

(** One gesture event: the timer moves as [gesture_step], the camera
    request is queued exactly when the detector decides to switch, and the
    input and the facing mode do not change. *)
Lemma step_gesture s e g :
  gesture_of e = Some g ->
  exists s', step s e = Some s' /\
    lastTapTime s' = fst (gesture_step (lastTapTime s) g) /\
    pending s' = pending s ++
      switch_requests s (if snd (gesture_step (lastTapTime s) g) then 1 else 0) /\
    imageInput s' = imageInput s /\ currentFacingMode s' = currentFacingMode s.
Proof.
  destruct e; intros [= <-]; eexists; (split; [reflexivity|]);
    unfold on_swipe, on_touchend, switchCamera, switch_requests, touchend,
      update_nStrips, update_nShuffles8, add_task;
    cbn; rewrite ?app_nil_r; handler_cases; rewrite ?app_nil_r; auto.
Qed.

(** C22 (refinement): from any session state, a sequence of swipe and
    touch-end events runs, leaves [lastTapTime] at the value the
    [TapTimer] detector computes for the same gestures, and queues one
    camera request (for the other facing mode) per [true] decision of the
    detector while the camera is the input, none in image mode. *)
Theorem run_gestures s es :
  Forall (fun e => is_Some (gesture_of e)) es ->
  exists s', run_trace step s es = Some s' /\
    lastTapTime s' = last_after (lastTapTime s) (omap gesture_of es) /\
    pending s' = pending s ++
      switch_requests s (count_of id (decisions (lastTapTime s) (omap gesture_of es))) /\
    imageInput s' = imageInput s.
Proof.
  intros Hes. revert s. induction Hes as [|e es [g Hg] _ IH]; intros s.
  - exists s. unfold switch_requests, count_of. cbn.
    destruct (imageInput s); rewrite app_nil_r; auto.
  - destruct (step_gesture s e g Hg) as (s1 & Hs1 & Ht & Hp & Hi & Hf).
    destruct (IH s1) as (s' & Hrun & Ht' & Hp' & Hi').
    assert (Ho : omap gesture_of (e :: es) = g :: omap gesture_of es)
      by (cbn; rewrite Hg; reflexivity).
    exists s'. cbn [run_trace]. rewrite Hs1, Ho.
    assert (Hsr : switch_requests s1 = switch_requests s)
      by (unfold switch_requests; rewrite Hi, Hf; reflexivity).
    unfold last_after in *. cbn [decisions fold_left].
    destruct (gesture_step (lastTapTime s) g) as [t sw] eqn:E. cbn in Ht, Hp.
    rewrite Ht in Ht', Hp'. rewrite Hsr, Hp in Hp'.
    rewrite count_of_cons, switch_requests_add, app_assoc.
    split_and!; [done | done | done | congruence].
Qed.

Lemma run_gestures_witness :
  exists s', run_trace step st0 [EvTouchEnd 1000; EvSwipe "x" 40; EvTouchEnd 1100] = Some s' /\
    lastTapTime s' = last_after (lastTapTime st0)
                       (omap gesture_of [EvTouchEnd 1000; EvSwipe "x" 40; EvTouchEnd 1100]) /\
    pending s' = pending st0 ++
      switch_requests st0 (count_of id (decisions (lastTapTime st0)
                             (omap gesture_of [EvTouchEnd 1000; EvSwipe "x" 40; EvTouchEnd 1100]))) /\
    imageInput s' = imageInput st0.
Proof. apply run_gestures. repeat constructor; eexists; reflexivity. Defined.

End Gestures.
