(* ===== verification/ExportOrch.v ===== *)
(** * ExportOrch: the session refines the spec's export orchestrator

    The spec describes the export of a still as a state machine with three
    states, Idle -> Preparing -> Rendering -> Idle: the request pauses the
    display loop and attaches the sized canvas, the timer renders one frame
    and starts the save, the save's completion detaches the canvas and
    resumes the display loop; a failed save is not caught and leaves the
    loop paused and the canvas attached.  [orch_step] is that machine on
    the abstract state [Orch] (phase, display loop running, canvas in the
    document), with one more transition: a decoded image restarts the
    display loop while no export runs (lines 70-71).

    The abstraction [orch_of] reads the phase off the pending tasks of the
    session (a pending save means Rendering, a pending timer Preparing).
    The code itself does not prevent a second export while one runs, nor an
    image decoded during an export from restarting the display loop
    ([Scenarios]); [orch_ok] excludes exactly these two events, and
    [orch_reachable] is the set of states of the runs that respect it.  On
    those runs every session step is a stuttering step of the abstract
    machine, and the spec's promise that the display loop stays paused for
    the whole export follows from the abstract machine alone. *)

From S2P Require Import Prelude Params ExportSize TapTimer Shader Media Session SessionInv.
From stdpp Require Import gmap relations.

Module ExportOrch.
Import Shader Media Session SessionInv.

(** ** The abstract machine of the spec *)

Inductive Phase := Idle | Preparing | Rendering.

#[export] Instance Phase_eq_dec : EqDecision Phase.
Proof. solve_decision. Defined.

Record Orch := mkOrch { o_phase : Phase; o_playing : bool; o_attached : bool }.

Inductive orch_step : Orch -> Orch -> Prop :=
| orch_request p a :
    orch_step (mkOrch Idle p a) (mkOrch Preparing false true)
| orch_render :
    orch_step (mkOrch Preparing false true) (mkOrch Rendering false true)
| orch_done :
    orch_step (mkOrch Rendering false true) (mkOrch Idle true false)
| orch_failed :
    orch_step (mkOrch Rendering false true) (mkOrch Idle false true)
| orch_input_play a :
    orch_step (mkOrch Idle false a) (mkOrch Idle true a).

Definition orch_init : Orch := mkOrch Idle true false.

(** ** The abstraction of a session *)

Definition is_timeout (t : Task) : bool :=
  match t with TExportTimeout => true | _ => false end.

Definition is_save (t : Task) : bool :=
  match t with TExportSave _ => true | _ => false end.

Definition export_phase (l : list Task) : Phase :=
  if (0 <? count_of is_save l)%nat then Rendering
  else if (0 <? count_of is_timeout l)%nat then Preparing
  else Idle.

Definition orch_of (s : Session) : Orch :=
  mkOrch (export_phase (pending s)) (sh_playing (displayShader s))
    (cv_attached (exportCanvas s)).

Definition is_idle (s : Session) : bool :=
  bool_decide (export_phase (pending s) = Idle).

(** The events the spec's orchestrator allows: an export request only
    while idle, and an image decoded only while idle. *)
Definition orch_ok (s : Session) (e : Event) : bool :=
  match e with
  | EvKeydown k => if String.eqb k "s" then is_idle s else true
  | EvShutterClick => is_idle s
  | EvResolve _ (RImageLoad (Some _)) => is_idle s
  | _ => true
  end.

Inductive orch_reachable : Session -> Prop :=
| orch_reach_start w h s :
    main_start (GumGranted w h) = Some s -> orch_reachable s
| orch_reach_step s e s' :
    orch_reachable s -> orch_ok s e = true -> step s e = Some s' -> orch_reachable s'.

(** The invariant that makes the abstraction a simulation: at most one
    export task is pending, and while one is, the display loop is paused
    and the canvas attached. *)
Definition orch_inv (s : Session) : Prop :=
  (count_of is_save (pending s) + count_of is_timeout (pending s) <= 1)%nat /\
  (export_phase (pending s) <> Idle ->
   sh_playing (displayShader s) = false /\ cv_attached (exportCanvas s) = true).

(** ** The simulation *)

Ltac ltb_cases := repeat match goal with
  | |- context[(0 <? ?n)%nat] => destruct (Nat.ltb_spec 0 n)
  | H : context[(0 <? ?n)%nat] |- _ => destruct (Nat.ltb_spec 0 n)
  end.

Ltac orch_counts :=
  unfold orch_inv, orch_of, is_idle, export_phase in *; cbn -[Nat.ltb] in *;
  rewrite ?count_of_app in *;
  repeat match goal with
  | Hi : pending ?s !! ?i = Some ?t |- _ =>
      pose proof (count_of_delete is_save _ _ _ Hi);
      pose proof (count_of_delete is_timeout _ _ _ Hi); clear Hi
  end;
  cbn [is_save is_timeout o_phase o_playing o_attached] in *.

Lemma step_orch s e s' :
  orch_inv s -> orch_ok s e = true -> step s e = Some s' ->
  orch_inv s' /\ (orch_of s' = orch_of s \/ orch_step (orch_of s) (orch_of s')).
Proof.
  intros Hinv Hok H.
  step_cases H; cbn [orch_ok] in Hok; unfold_handlers; handler_cases; cbn in *; orch_counts.
  all: ltb_cases; cbn in *; try lia.
  all: repeat match goal with
       | H : bool_decide _ = true |- _ => apply bool_decide_eq_true in H
       end; key_cases.
  all: destruct Hinv as [Hc Hp].
  all: try (split; [split; [lia|intuition congruence]|]).
  all: try (left; reflexivity).
  all: first [ right; constructor
             | destruct Hp as [-> ->]; [discriminate|]; right; constructor
             | destruct (sh_playing (displayShader s)); [left; reflexivity|right; constructor] ].
Qed.

Lemma orch_reachable_inv s : orch_reachable s -> orch_inv s.
Proof.
  induction 1 as [w h s Hs|s e s' _ IH Hok Hstep].
  - start_case Hs. unfold orch_inv, export_phase, count_of. cbn. split; [lia|done].
  - by apply (step_orch s e s').
Qed.


(** Every orchestrator state reachable in the session is reachable in the
    abstract machine from Idle with the display running. *)
Lemma orch_reachable_abstract s : orch_reachable s -> rtc orch_step orch_init (orch_of s).
Proof.
  induction 1 as [w h s Hs|s e s' Hr IH Hok Hstep].
  - start_case Hs. reflexivity.
  - destruct (step_orch s e s' (orch_reachable_inv s Hr) Hok Hstep) as [_ [-> | Ho]];
      [done | by eapply rtc_r].
Qed.

(** The abstract machine keeps the display loop paused and the canvas
    attached while an export is not idle. *)
Definition orch_safe (o : Orch) : Prop :=
  o_phase o <> Idle -> o_playing o = false /\ o_attached o = true.

Lemma orch_safe_rtc o : rtc orch_step orch_init o -> orch_safe o.
Proof.
  apply (rtc_ind_r orch_safe); [by unfold orch_safe|].
  intros o1 o2 _ Hs IH. inversion Hs; subst; unfold orch_safe in *; cbn in *; naive_solver.
Qed.

(** C15 (safety): on the same runs, the display loop stays paused and the
    export canvas stays in the document from the export request until the
    save completes (spec, section 5: no two render targets are drawn
    concurrently). *)
Theorem export_busy_paused s :
  orch_reachable s -> export_phase (pending s) <> Idle ->
  sh_playing (displayShader s) = false /\ cv_attached (exportCanvas s) = true.
Proof. intros Hr. apply (orch_safe_rtc _ (orch_reachable_abstract s Hr)). Qed.

(** ** Witnesses *)

Lemma st_export_orch : orch_reachable st_export.
Proof.
  apply (orch_reach_step st_key (EvKeydown "s")); [|reflexivity|reflexivity].
  apply (orch_reach_step st0 (EvKeydown "ArrowUp")); [|reflexivity|reflexivity].
  apply (orch_reach_start 640 480). reflexivity.
Qed.


Lemma export_busy_paused_witness :
  sh_playing (displayShader st_export) = false /\ cv_attached (exportCanvas st_export) = true.
Proof.
  apply export_busy_paused; [exact st_export_orch|].
  intros H. vm_compute in H. discriminate H.
Defined.

End ExportOrch.
