(* ===== verification/ExportFlow.v ===== *)
(** * ExportFlow: the export sequence of [exportHighRes]

    Lines 93-128 of [src/src/main.js] as they run through the event loop:
    the synchronous part ([Session.exportHighRes]: pause the display loop,
    size and attach the export canvas, push the current parameters and
    input to [exportShader], start an 8 ms timer), the timer callback
    ([Session.export_timeout]: [step(0)] and start [save]) and the code
    after [await save] ([Session.export_saved]: detach the canvas and call
    [play()]).  The theorems follow one export request through the three
    steps, on the success path and when [save] rejects. *)

From S2P Require Import Prelude Params ExportSize Shader Media Session SessionInv.
From stdpp Require Import gmap.

Module ExportFlow.
Import ExportSize Shader Media Session SessionInv.

(** The canvas size [exportHighRes] computes for the current input and
    [nShuffles] (lines 95-117). *)
Definition export_size (s : Session) : Z * Z :=
  exportDims (fst (native_size s)) (snd (native_size s)) (nShuffles8 s).

(** The export shader once lines 119-120 pushed the parameters and the
    input to it. *)
Definition export_shader (s : Session) : Shader :=
  set_u_inputStream (current_source s)
    (set_u_nStrips (nStrips s) (set_u_nShuffles (nShuffles8 s) (exportShader s))).

(** An export is requested: key ['s'] (line 169) or the shutter button
    (line 175). *)
Definition is_export_request (e : Event) : bool :=
  match e with
  | EvKeydown k => String.eqb k "s"
  | EvShutterClick => true
  | _ => false
  end.

(** The synchronous part of [exportHighRes] as a composition of its
    effects. *)
Lemma exportHighRes_eq s :
  exportHighRes s =
  add_task TExportTimeout
    (set_exportShader (export_shader s)
    (set_exportCanvas (mkCanvas (fst (export_size s)) (snd (export_size s)) true)
    (set_displayShader (pause (displayShader s)) s))).
Proof.
  unfold exportHighRes, export_shader, export_size, native_size, current_source.
  cbn. destruct (imageInput s); cbn; destruct (exportDims _ _ _); reflexivity.
Qed.

Create Rewrite HintDb export_rw.
#[export] Hint Rewrite exportHighRes_eq : export_rw.

(** The snapshot an export of [s] writes. *)
Definition export_snapshot (s : Session) : Snapshot :=
  mkSnapshot (fst (export_size s)) (snd (export_size s)) (nShuffles8 s) (nStrips s)
    (current_source s).

(** The three steps of one export request, as handler applications. *)
Lemma export_step_key s : step s (EvKeydown "s") = Some (exportHighRes s).
Proof. reflexivity. Qed.

Definition after_timeout (s : Session) : Session :=
  export_timeout (set_pending (pending s) (exportHighRes s)).

Lemma export_step_timeout s :
  step (exportHighRes s) (EvResolve (length (pending s)) RTimeout) = Some (after_timeout s).
Proof.
  unfold after_timeout. cbn [step]. autorewrite with export_rw.
  cbn [pending add_task set_pending set_exportShader set_exportCanvas set_displayShader].
  rewrite list_lookup_middle by done. cbn [resume].
  rewrite delete_middle, app_nil_r. reflexivity.
Qed.

Definition timeout_snapshot (s : Session) : Snapshot :=
  render (cv_width (exportCanvas (exportHighRes s))) (cv_height (exportCanvas (exportHighRes s)))
    (exportShader (exportHighRes s)).

Lemma export_step_save s ok :
  step (after_timeout s) (EvResolve (length (pending s)) (RSave ok)) =
  Some (export_saved (timeout_snapshot s) ok (set_pending (pending s) (after_timeout s))).
Proof.
  unfold after_timeout, export_timeout, add_task, timeout_snapshot. cbn [step].
  cbn [pending set_pending]. rewrite list_lookup_middle by done. cbn [resume].
  rewrite delete_middle, app_nil_r. reflexivity.
Qed.

Lemma timeout_snapshot_eq s : timeout_snapshot s = export_snapshot s.
Proof. unfold timeout_snapshot. autorewrite with export_rw. reflexivity. Qed.

(** C2 (functional): one export request goes through the three states of the
    spec's export orchestrator: after the key press the display loop is
    paused and the canvas attached; after the timer it is still so; after
    the save resolves the file holds the frame rendered at the computed
    size with the parameters and input of the request, the canvas is
    detached, the display loop plays again and the other pending tasks and
    the log are as before. *)
Theorem export_sequence s :
  exists s1 s2 s3,
    step s (EvKeydown "s") = Some s1 /\
    step s1 (EvResolve (length (pending s)) RTimeout) = Some s2 /\
    step s2 (EvResolve (length (pending s)) (RSave true)) = Some s3 /\
    sh_playing (displayShader s1) = false /\ cv_attached (exportCanvas s1) = true /\
    sh_playing (displayShader s2) = false /\ cv_attached (exportCanvas s2) = true /\
    saved s3 = saved s ++ [export_snapshot s] /\
    exportCanvas s3 = mkCanvas (fst (export_size s)) (snd (export_size s)) false /\
    sh_playing (displayShader s3) = true /\
    pending s3 = pending s /\ log s3 = log s.
Proof.
  eexists _, _, _.
  split; [apply export_step_key|]. split; [apply export_step_timeout|].
  split; [apply export_step_save|].
  rewrite timeout_snapshot_eq. unfold after_timeout, export_timeout, export_saved, call_play.
  autorewrite with export_rw. cbn. destruct (play s); cbn; repeat split; reflexivity.
Qed.

(** C23 (error): when [save] rejects, the rejection is not caught (line
    124): the code after the [await] never runs, so the display loop stays
    paused, the export canvas stays in the document and the error escapes
    as an uncaught rejection; nothing is saved. *)
Theorem export_save_rejected s :
  exists s3,
    step (after_timeout s) (EvResolve (length (pending s)) (RSave false)) = Some s3 /\
    sh_playing (displayShader s3) = false /\ cv_attached (exportCanvas s3) = true /\
    log s3 = log s ++ [UncaughtSaveError] /\ saved s3 = saved s /\
    pending s3 = pending s.
Proof.
  eexists. split; [apply export_step_save|].
  unfold after_timeout, export_timeout, export_saved, add_log.
  autorewrite with export_rw. cbn. repeat split; reflexivity.
Qed.

(** C3 (roundtrip): from a reachable state whose display loop runs, a
    completed export (key, timer, successful save) returns to the state
    it started from except for what the export is for: the file saved,
    the export canvas at the export size (detached again) and the export
    shader configured.  In particular the display shader, its uniforms,
    texture and per-frame callback included, is exactly as before: the
    loop resumes where it left off (spec, section 4.5). *)
Theorem export_roundtrip s :
  reachable s -> sh_playing (displayShader s) = true ->
  run_trace step s [EvKeydown "s"; EvResolve (length (pending s)) RTimeout;
                    EvResolve (length (pending s)) (RSave true)] =
  Some (set_saved (saved s ++ [export_snapshot s])
          (set_exportCanvas (mkCanvas (fst (export_size s)) (snd (export_size s)) false)
             (set_exportShader (export_shader s) s))).
Proof.
  intros Hr Hp. destruct (reachable_play_consistent s Hr) as [_ Hcb].
  cbn [run_trace]. rewrite export_step_key, export_step_timeout, export_step_save.
  rewrite timeout_snapshot_eq. unfold after_timeout, export_timeout, export_saved, call_play.
  autorewrite with export_rw. cbn. rewrite <- Hcb, play_pause by done.
  by destruct s.
Qed.

Lemma export_roundtrip_witness :
  run_trace step st_key [EvKeydown "s"; EvResolve (length (pending st_key)) RTimeout;
                         EvResolve (length (pending st_key)) (RSave true)] =
  Some (set_saved (saved st_key ++ [export_snapshot st_key])
          (set_exportCanvas (mkCanvas (fst (export_size st_key)) (snd (export_size st_key)) false)
             (set_exportShader (export_shader st_key) st_key))).
Proof. apply export_roundtrip; [exact st_key_reachable | reflexivity]. Defined.

(** C37 (functional): the export shader is synchronised lazily (spec,
    section 4.4): no listener, frame or continuation other than an export
    request changes [exportShader] (parameter changes, new inputs and camera
    switches reach only the display shader), and an export request loads
    the current [nStrips], [nShuffles] and input into it (lines 119-120). *)
Theorem step_exportShader s e s' :
  step s e = Some s' ->
  exportShader s' = if is_export_request e then export_shader s else exportShader s.
Proof.
  intros H. step_cases H; cbn [is_export_request];
    unfold on_keydown, on_shutter_click, on_swipe, on_touchend, on_drop, on_frame,
      switchCamera_resume, image_onload, export_timeout, export_saved, switchCamera,
      call_play, removeVideoInput, update_nStrips, update_nShuffles8, add_task, add_log;
    handler_cases; key_cases; autorewrite with export_rw; reflexivity.
Qed.

Lemma step_exportShader_witness :
  exportShader st_export =
  if is_export_request (EvKeydown "s") then export_shader st_key else exportShader st_key.
Proof. apply (step_exportShader st_key (EvKeydown "s")). reflexivity. Defined.

End ExportFlow.
