(* ===== verification/Scenarios.v ===== *)
(** * Scenarios: what the session does when asynchronous work overlaps

    Concrete runs of [Session.step] from start-up ([Session.run]), each
    evaluated by the kernel.  Every scenario is a sequence of events a user
    and a browser can produce: key presses, touches and drops, and the
    resolution of pending camera requests, image decodings, timers and
    saves in an order the event loop allows. *)

From S2P Require Import Prelude Params ExportSize TapTimer Shader Media Session.
From stdpp Require Import gmap.

Module Scenarios.
Import Shader Media Session.
Local Open Scope Z_scope.







End Scenarios.
