(* ===== verification/SessionFun.v ===== *)
(** * SessionFun: functional behaviour of the session handlers

    What each listener and continuation of [src/src/main.js] does to the
    session state, branch by branch: the two outcomes of
    the camera request of [switchCamera] (lines 141-148) and the image
    [onload] continuation (lines 68-74). *)

From S2P Require Import Prelude Params ExportSize TapTimer Shader Media Session SessionInv.
From stdpp Require Import gmap.

Module SessionFun.
Import TapTimer Shader Media Session SessionInv.
Local Open Scope Z_scope.

(** The state after the camera of a switch arrived. *)
Lemma switch_resolved s i nf g s' :
  pending s !! i = Some (TSwitchCamera nf) ->
  step s (EvResolve i (RGetUserMedia g)) = Some s' ->
  s' = switchCamera_resume nf g (set_pending (delete i (pending s)) s).
Proof. intros Hi H. cbn [step] in H. rewrite Hi in H. cbn in H. congruence. Qed.

(** C24 (functional): when the camera of a switch arrives, it becomes
    [videoInput] with a new running track, the display shader samples it,
    the facing mode becomes the one requested and the [flipped] class
    follows it (lines 142-145). *)
Theorem switch_granted s i nf w h s' :
  pending s !! i = Some (TSwitchCamera nf) ->
  step s (EvResolve i (RGetUserMedia (GumGranted w h))) = Some s' ->
  videoInput s' = mkVideo (nextId s) w h /\ live s' = {[nextId s]} ∪ live s /\
  sh_texture (displayShader s') = TexVideo (nextId s) /\
  currentFacingMode s' = nf /\ flipped s' = bool_decide (nf = Environment) /\
  pending s' = delete i (pending s).
Proof.
  intros Hi H. rewrite (switch_resolved s i nf _ s' Hi H). cbn. repeat split.
Qed.

(** C25 (error): when the camera of a switch is refused, both [console.error]
    calls run (lines 26 and 147), the old stream stays stopped and nothing
    else changes: the session keeps a [videoInput] whose track is stopped. *)
Theorem switch_denied s i nf s' :
  pending s !! i = Some (TSwitchCamera nf) ->
  step s (EvResolve i (RGetUserMedia GumDenied)) = Some s' ->
  log s' = log s ++ [LogWebcamError; LogSwitchCameraFailed] /\
  videoInput s' = videoInput s /\ live s' = live s /\
  currentFacingMode s' = currentFacingMode s /\ pending s' = delete i (pending s).
Proof.
  intros Hi H. rewrite (switch_resolved s i nf _ s' Hi H). cbn.
  rewrite <- app_assoc. repeat split.
Qed.


(** C21 (functional): in a reachable state where the display loop runs,
    one frame rebinds the display texture to the current camera element
    while the camera is the input (lines 201-203), and changes nothing once
    an image is the input (the plain [play] of line 71 has no callback). *)
Theorem frame_texture_sync s :
  reachable s -> sh_playing (displayShader s) = true ->
  step s EvFrame =
  Some (match imageInput s with
        | Some _ => s
        | None => set_displayShader (set_u_inputStream (TexVideo (video_id (videoInput s)))
                                       (displayShader s)) s
        end).
Proof.
  intros Hr Hp. destruct (reachable_play_consistent s Hr) as [Hplay Hcb].
  cbn [step]. unfold on_frame. rewrite Hp, Hcb, Hplay.
  destruct (imageInput s); reflexivity.
Qed.

Lemma frame_texture_sync_witness :
  step st_key EvFrame =
  Some (match imageInput st_key with
        | Some _ => st_key
        | None => set_displayShader (set_u_inputStream (TexVideo (video_id (videoInput st_key)))
                                       (displayShader st_key)) st_key
        end).
Proof. apply frame_texture_sync; [exact st_key_reachable | reflexivity]. Defined.




(** A session with a camera switch waiting for its camera. *)
Definition switching : Session :=
  on_touchend 1100 (on_touchend 1000 (started (mkVideo 0 640 480) ({[0%nat]} ∪ ∅))).

Lemma switch_granted_witness :
  exists s', step switching (EvResolve 0 (RGetUserMedia (GumGranted 1280 720))) = Some s' /\
  videoInput s' = mkVideo (nextId switching) 1280 720 /\
  live s' = {[nextId switching]} ∪ live switching /\
  sh_texture (displayShader s') = TexVideo (nextId switching) /\
  currentFacingMode s' = Environment /\ flipped s' = bool_decide (Environment = Environment) /\
  pending s' = delete 0%nat (pending switching).
Proof.
  eexists. split; [reflexivity|].
  apply (switch_granted switching 0 Environment 1280 720); reflexivity.
Defined.

Lemma switch_denied_witness :
  exists s', step switching (EvResolve 0 (RGetUserMedia GumDenied)) = Some s' /\
  log s' = log switching ++ [LogWebcamError; LogSwitchCameraFailed] /\
  videoInput s' = videoInput switching /\ live s' = live switching /\
  currentFacingMode s' = currentFacingMode switching /\
  pending s' = delete 0%nat (pending switching).
Proof.
  eexists. split; [reflexivity|].
  apply (switch_denied switching 0 Environment); reflexivity.
Defined.

End SessionFun.
