(* ===== verification/Liveness.v ===== *)
(** * Liveness: the event loop drains and the display resumes

    With no further user input, the browser resolves the pending tasks of
    [Session.pending] one after the other.  Each resolution removes its
    task; only the export timer adds one (its save), so the weight
    [pending_weight] (2 for a timer, 1 for any other task) decreases at
    every resolution.  [drain] resolves the first pending task until none
    is left, with fuel; fuel equal to the weight is enough.  Combined with
    the invariants of [SessionInv], a session whose saves succeed always
    comes back to a running display loop with the export canvas detached. *)

From S2P Require Import Prelude Params ExportSize TapTimer Shader Media Session SessionInv.
From stdpp Require Import gmap.

Module Liveness.
Import Shader Media Session SessionInv.

Definition task_weight (t : Task) : nat :=
  match t with TExportTimeout => 2 | _ => 1 end.

Definition pending_weight (l : list Task) : nat := sum_list_with task_weight l.

(** The outcome the drain chooses for each kind of task: the camera is
    refused, the image never decodes, the timer fires, the save succeeds. *)
Definition drain_resolution (t : Task) : Resolution :=
  match t with
  | TSwitchCamera _ => RGetUserMedia GumDenied
  | TLoadImage => RImageLoad None
  | TExportTimeout => RTimeout
  | TExportSave _ => RSave true
  end.

(** Resolve the first pending task, [fuel] times at most. *)
Fixpoint drain (fuel : nat) (s : Session) : list Event :=
  match fuel with
  | 0 => []
  | S f =>
      match pending s with
      | [] => []
      | t :: _ =>
          let e := EvResolve 0 (drain_resolution t) in
          match step s e with
          | Some s' => e :: drain f s'
          | None => []
          end
      end
  end.

Lemma resolve_first s t rest :
  pending s = t :: rest ->
  exists s1, step s (EvResolve 0 (drain_resolution t)) = Some s1 /\
    (pending_weight (pending s1) < pending_weight (pending s))%nat /\
    (UncaughtSaveError ∈ log s1 -> UncaughtSaveError ∈ log s).
Proof.
  intros Hp. cbn [step]. rewrite Hp. cbn [lookup list_lookup].
  destruct t; cbn [drain_resolution resume]; eexists; (split; [reflexivity|]);
    unfold switchCamera_resume, image_onload, export_timeout, export_saved,
      call_play, add_task, add_log;
    cbn; repeat case_match; cbn;
    unfold pending_weight; rewrite ?sum_list_with_app; cbn; (split; [lia|]);
    rewrite ?elem_of_app, ?list_elem_of_singleton; intros; naive_solver.
Qed.

(** C17 (termination): with fuel at least the weight of the pending tasks,
    [drain] resolves every pending task: the run succeeds and leaves no
    pending task, and it introduces no save failure. *)
Theorem drain_empties (fuel : nat) s :
  (pending_weight (pending s) <= fuel)%nat ->
  exists s', run_trace step s (drain fuel s) = Some s' /\ pending s' = [] /\
    (UncaughtSaveError ∈ log s' -> UncaughtSaveError ∈ log s).
Proof.
  revert s. induction fuel as [|f IH]; intros s Hw; cbn [drain].
  - destruct (pending s) as [|t rest] eqn:Hp.
    + exists s. cbn. auto.
    + exfalso. unfold pending_weight in Hw. cbn in Hw.
      destruct t; cbn in Hw; lia.
  - destruct (pending s) as [|t rest] eqn:Hp.
    + exists s. cbn. auto.
    + destruct (resolve_first s t rest Hp) as (s1 & Hs1 & Hlt & Hlog).
      rewrite Hp in Hlt. rewrite Hs1. cbn [run_trace]. rewrite Hs1.
      destruct (IH s1 ltac:(lia)) as (s' & Hrun & Hpend & Hlog').
      exists s'. auto.
Qed.



Lemma drain_empties_witness :
  exists s', run_trace step st_export (drain 2 st_export) = Some s' /\ pending s' = [] /\
    (UncaughtSaveError ∈ log s' -> UncaughtSaveError ∈ log st_export).
Proof. apply drain_empties. vm_compute. lia. Defined.


End Liveness.
